(** * Real-time connection hooks of the analytics dashboard

    A shallow embedding of [useWebSocket]
    (dashboard/hooks/use-websocket.ts, carried in src/dashboard/lib/api.ts)
    and of [useRealTimeData] (dashboard/hooks/use-real-time-data.ts), which
    calls it.

    The two hooks are event driven: every piece of code in them runs as a
    callback (the url effect and its cleanup, a socket handler, the reconnect
    timer, a click on the toggle).  The embedding keeps one [World] with the
    React state cells, the two refs and the platform objects the hooks create
    (sockets, timers, calls on the query cache, console lines), and one
    computation per callback.  A callback reads React state through the
    constants of the render that created it, kept in a [Render], and writes
    it through the setters; that is how closures over [useState] values
    behave, and several statements below depend on it.

    What is taken from the platform rather than from the source:
    - [JSON.parse] is the grammar of ECMA-404 over UTF-16 code units;
    - a frame is a text frame; a socket gets message events while it is
      open, an open event while it is connecting, and a close event once;
      an error event is an event of its own that may come at any time before
      the close event;
    - whether [new WebSocket(url)] throws is a parameter ([Platform]);
    - one instance of [useRealTimeData] is modelled (each component that
      calls the hook has its own state and its own socket). *)

From Stdlib Require Import NArith Lia String Ascii.
From stdpp Require Import base list strings pretty.

Set Warnings "-register-all".

Open Scope N_scope.
Open Scope nat_scope.

(* ===================================================================== *)
(** ** JavaScript strings and JSON values *)
(* ===================================================================== *)

Module JS.

(** A JavaScript string is a sequence of UTF-16 code units. *)
Definition JSString := list N.

(** Code units of a string literal of this file. *)
Definition units (s : string) : JSString :=
  map N_of_ascii (list_ascii_of_string s).

(** The same, with every apostrophe standing for a double quote, so that a
    JSON text can be written down as a literal. *)
Definition json_text (s : string) : JSString :=
  map (fun c => if N.eqb c 39 then 34%N else c) (units s).

Fixpoint units_eqb (a b : JSString) : bool :=
  match a, b with
  | [], [] => true
  | x :: a', y :: b' => N.eqb x y && units_eqb a' b'
  | _, _ => false
  end.

(** The values [JSON.parse] can return.  A number keeps its lexeme: no code
    modelled here looks inside a number. *)
Inductive JSValue : Type :=
  | JNull
  | JBool (b : bool)
  | JNumber (lexeme : JSString)
  | JString (s : JSString)
  | JArray (elements : list JSValue)
  | JObject (members : list (JSString * JSValue)).

(** Exceptions that the modelled code can raise. *)
Inductive JSError : Type :=
  | SyntaxError
  | TypeError.

(** *** JSON.parse (ECMA-404 grammar) *)

Definition is_ws (c : N) : bool :=
  N.eqb c 32 || N.eqb c 9 || N.eqb c 10 || N.eqb c 13.

Fixpoint skip_ws (s : JSString) : JSString :=
  match s with
  | c :: r => if is_ws c then skip_ws r else s
  | [] => []
  end.

Definition is_digit (c : N) : bool := N.leb 48 c && N.leb c 57.

Definition hex_val (c : N) : option N :=
  if is_digit c then Some (c - 48)%N
  else if N.leb 97 c && N.leb c 102 then Some (c - 87)%N
  else if N.leb 65 c && N.leb c 70 then Some (c - 55)%N
  else None.

Fixpoint span_digits (s : JSString) : JSString * JSString :=
  match s with
  | c :: r =>
      if is_digit c then let '(d, r') := span_digits r in (c :: d, r')
      else ([], s)
  | [] => ([], [])
  end.

(** The characters of a string literal after its opening quote. *)
Fixpoint parse_string_body (s : JSString) : option (JSString * JSString) :=
  match s with
  | [] => None
  | c :: r =>
      if N.eqb c 34 then Some ([], r)
      else if N.ltb c 32 then None
      else if N.eqb c 92 then
        match r with
        | e :: r1 =>
            let simple (u : N) :=
              match parse_string_body r1 with
              | Some (t, r') => Some (u :: t, r')
              | None => None
              end in
            if N.eqb e 34 then simple 34%N
            else if N.eqb e 92 then simple 92%N
            else if N.eqb e 47 then simple 47%N
            else if N.eqb e 98 then simple 8%N
            else if N.eqb e 102 then simple 12%N
            else if N.eqb e 110 then simple 10%N
            else if N.eqb e 114 then simple 13%N
            else if N.eqb e 116 then simple 9%N
            else if N.eqb e 117 then
              match r1 with
              | h1 :: h2 :: h3 :: h4 :: r2 =>
                  match hex_val h1, hex_val h2, hex_val h3, hex_val h4 with
                  | Some a, Some b, Some c', Some d =>
                      match parse_string_body r2 with
                      | Some (t, r') =>
                          Some ((a * 4096 + b * 256 + c' * 16 + d)%N :: t, r')
                      | None => None
                      end
                  | _, _, _, _ => None
                  end
              | _ => None
              end
            else None
        | [] => None
        end
      else
        match parse_string_body r with
        | Some (t, r') => Some (c :: t, r')
        | None => None
        end
  end.

(** A number: an optional minus sign, an integer part without a leading
    zero (or the single digit zero), an optional fraction and an optional
    exponent. *)
Definition parse_int_part (s : JSString) : option (JSString * JSString) :=
  match s with
  | c :: r =>
      if N.eqb c 48 then Some ([c], r)
      else if is_digit c then let '(d, r') := span_digits r in Some (c :: d, r')
      else None
  | [] => None
  end.

Definition parse_frac_part (s : JSString) : option (JSString * JSString) :=
  match s with
  | c :: r =>
      if N.eqb c 46 then
        match span_digits r with
        | ([], _) => None
        | (d, r') => Some (c :: d, r')
        end
      else Some ([], s)
  | [] => Some ([], [])
  end.

Definition parse_exp_part (s : JSString) : option (JSString * JSString) :=
  match s with
  | c :: r =>
      if N.eqb c 101 || N.eqb c 69 then
        let '(sign, r1) :=
          match r with
          | g :: r0 => if N.eqb g 43 || N.eqb g 45 then ([g], r0) else ([], r)
          | [] => ([], r)
          end in
        match span_digits r1 with
        | ([], _) => None
        | (d, r') => Some (c :: sign ++ d, r')
        end
      else Some ([], s)
  | [] => Some ([], [])
  end.

Definition parse_number (s : JSString) : option (JSString * JSString) :=
  let '(minus, s0) :=
    match s with
    | c :: r => if N.eqb c 45 then ([c], r) else ([], s)
    | [] => ([], s)
    end in
  match parse_int_part s0 with
  | None => None
  | Some (i, s1) =>
      match parse_frac_part s1 with
      | None => None
      | Some (f, s2) =>
          match parse_exp_part s2 with
          | None => None
          | Some (e, s3) => Some (minus ++ i ++ f ++ e, s3)
          end
      end
  end.

Fixpoint strip_prefix (p s : JSString) : option JSString :=
  match p, s with
  | [], _ => Some s
  | x :: p', y :: s' => if N.eqb x y then strip_prefix p' s' else None
  | _ :: _, [] => None
  end.

(** Outcome of a parser that works on a budget of nested calls. *)
Inductive Parsed (A : Type) : Type :=
  | OutOfFuel
  | Rejected
  | Accepted (a : A) (rest : JSString).
Arguments OutOfFuel {A}.
Arguments Rejected {A}.
Arguments Accepted {A} a rest.

Definition of_option {A : Type} (o : option (A * JSString)) : Parsed A :=
  match o with
  | Some (a, r) => Accepted a r
  | None => Rejected
  end.

(** Values, array elements and object members.  The three functions call
    each other on the rest of the input; [fuel] bounds the nesting of these
    calls.  [JSON_parse] below supplies a budget that no input exhausts
    ([JSON_parse_fuel]). *)
Fixpoint parse_value (fuel : nat) (s : JSString) : Parsed JSValue :=
  match fuel with
  | O => OutOfFuel
  | S f =>
      match skip_ws s with
      | [] => Rejected
      | c :: r =>
          if N.eqb c 110 then
            of_option (r' ← strip_prefix (units "ull") r; Some (JNull, r'))
          else if N.eqb c 116 then
            of_option (r' ← strip_prefix (units "rue") r; Some (JBool true, r'))
          else if N.eqb c 102 then
            of_option (r' ← strip_prefix (units "alse") r; Some (JBool false, r'))
          else if N.eqb c 34 then
            of_option ('(t, r') ← parse_string_body r; Some (JString t, r'))
          else if N.eqb c 91 then
            match skip_ws r with
            | c' :: r' =>
                if N.eqb c' 93 then Accepted (JArray []) r'
                else
                  match parse_elements f r with
                  | Accepted vs r'' => Accepted (JArray vs) r''
                  | Rejected => Rejected
                  | OutOfFuel => OutOfFuel
                  end
            | [] => Rejected
            end
          else if N.eqb c 123 then
            match skip_ws r with
            | c' :: r' =>
                if N.eqb c' 125 then Accepted (JObject []) r'
                else
                  match parse_members f r with
                  | Accepted ms r'' => Accepted (JObject ms) r''
                  | Rejected => Rejected
                  | OutOfFuel => OutOfFuel
                  end
            | [] => Rejected
            end
          else
            of_option ('(n, r') ← parse_number (c :: r); Some (JNumber n, r'))
      end
  end
with parse_elements (fuel : nat) (s : JSString) : Parsed (list JSValue) :=
  match fuel with
  | O => OutOfFuel
  | S f =>
      match parse_value f s with
      | OutOfFuel => OutOfFuel
      | Rejected => Rejected
      | Accepted v r =>
          match skip_ws r with
          | c :: r' =>
              if N.eqb c 44 then
                match parse_elements f r' with
                | Accepted vs r'' => Accepted (v :: vs) r''
                | Rejected => Rejected
                | OutOfFuel => OutOfFuel
                end
              else if N.eqb c 93 then Accepted [v] r'
              else Rejected
          | [] => Rejected
          end
      end
  end
with parse_members (fuel : nat) (s : JSString) : Parsed (list (JSString * JSValue)) :=
  match fuel with
  | O => OutOfFuel
  | S f =>
      match skip_ws s with
      | q :: r0 =>
          if N.eqb q 34 then
            match parse_string_body r0 with
            | None => Rejected
            | Some (k, r1) =>
                match skip_ws r1 with
                | colon :: r2 =>
                    if N.eqb colon 58 then
                      match parse_value f r2 with
                      | OutOfFuel => OutOfFuel
                      | Rejected => Rejected
                      | Accepted v r3 =>
                          match skip_ws r3 with
                          | c :: r4 =>
                              if N.eqb c 44 then
                                match parse_members f r4 with
                                | Accepted ms r5 => Accepted ((k, v) :: ms) r5
                                | Rejected => Rejected
                                | OutOfFuel => OutOfFuel
                                end
                              else if N.eqb c 125 then Accepted [(k, v)] r4
                              else Rejected
                          | [] => Rejected
                          end
                      end
                    else Rejected
                | [] => Rejected
                end
            end
          else Rejected
      | [] => Rejected
      end
  end.

(** [JSON.parse(text)]: [None] stands for the SyntaxError it throws. *)
Definition JSON_parse (text : JSString) : option JSValue :=
  match parse_value (2 * length text + 2) text with
  | Accepted v r => match skip_ws r with [] => Some v | _ :: _ => None end
  | Rejected => None
  | OutOfFuel => None
  end.

(** *** Property read [v.type]

    Reading a property of [null] throws a TypeError.  An object answers with
    its own member (the last one when the text repeats the key); for the
    names read in this file, [type] and [data], which no prototype defines,
    an object without the member and every other JSON value answer
    [undefined]. *)
Inductive PropertyRead : Type :=
  | ReadThrows
  | ReadUndefined
  | ReadValue (v : JSValue).

Fixpoint lookup_member (k : JSString) (ms : list (JSString * JSValue))
    : option JSValue :=
  match ms with
  | [] => None
  | (k', v) :: rest =>
      match lookup_member k rest with
      | Some v' => Some v'
      | None => if units_eqb k k' then Some v else None
      end
  end.

Definition get_property (v : JSValue) (k : string) : PropertyRead :=
  match v with
  | JNull => ReadThrows
  | JObject ms =>
      match lookup_member (units k) ms with
      | Some x => ReadValue x
      | None => ReadUndefined
      end
  | _ => ReadUndefined
  end.

(** [x === "literal"] *)
Definition strict_eq_literal (x : PropertyRead) (lit : string) : bool :=
  match x with
  | ReadValue (JString s) => units_eqb s (units lit)
  | _ => false
  end.

End JS.

Import JS.

(* ===================================================================== *)
(** ** Platform objects and the state of the two hooks *)
(* ===================================================================== *)

(** [WebSocket.readyState] *)
Inductive ReadyState : Type := CONNECTING | OPEN | CLOSING | CLOSED.

(** The [connectionStatus] state cell of [useWebSocket]. *)
Inductive ConnectionStatus : Type := connecting | connected | disconnected | error.

(** What a render of the two hooks hands to the closures it creates:
    [connect], the four socket handlers and the timer callback read [url],
    [reconnectAttempts] and the two reconnect options as the constants of
    that render; the [onMessage] callback built by [useRealTimeData] in the
    same render reads [isRealTimeEnabled] the same way. *)
Record Render : Type := {
  r_url : string;
  r_reconnectAttempts : nat;
  r_reconnectInterval : nat;
  r_maxReconnectAttempts : nat;
  r_isRealTimeEnabled : bool
}.

(** A socket object: its handlers are the closures of one render; [sent]
    lists the messages whose JSON text was written to the transport. *)
Record WebSocket : Type := {
  ws_url : string;
  readyState : ReadyState;
  handlers : Render;
  sent : list JSValue
}.

Inductive TimerState : Type := Pending | Fired | Cleared.

(** A timer made by [setTimeout]; its callback is a closure of one render. *)
Record Timer : Type := {
  delay : nat;
  callback : Render;
  timer_state : TimerState
}.

Inductive ConsoleEntry : Type :=
  | console_log (text : string)
  | console_error (text : string).

Record World : Type := {
  (* useWebSocket: useState cells *)
  isConnected : bool;
  connectionStatus : ConnectionStatus;
  lastMessage : JSValue;
  reconnectAttempts : nat;
  (* useWebSocket: useRef cells; sockets and timers are named by their
     position in [sockets] and [timers] *)
  ws_current : option nat;
  reconnectTimeoutRef : option nat;
  (* useRealTimeData: useState cells *)
  isRealTimeEnabled : bool;
  lastUpdate : option nat;
  updateCount : nat;
  (* platform *)
  sockets : list WebSocket;
  timers : list Timer;
  invalidated : list (list string);
  console : list ConsoleEntry
}.

Definition with_isConnected (x : bool) (w : World) : World :=
  {| isConnected := x;
     connectionStatus := connectionStatus w;
     lastMessage := lastMessage w;
     reconnectAttempts := reconnectAttempts w;
     ws_current := ws_current w;
     reconnectTimeoutRef := reconnectTimeoutRef w;
     isRealTimeEnabled := isRealTimeEnabled w;
     lastUpdate := lastUpdate w;
     updateCount := updateCount w;
     sockets := sockets w;
     timers := timers w;
     invalidated := invalidated w;
     console := console w |}.

Definition with_connectionStatus (x : ConnectionStatus) (w : World) : World :=
  {| isConnected := isConnected w;
     connectionStatus := x;
     lastMessage := lastMessage w;
     reconnectAttempts := reconnectAttempts w;
     ws_current := ws_current w;
     reconnectTimeoutRef := reconnectTimeoutRef w;
     isRealTimeEnabled := isRealTimeEnabled w;
     lastUpdate := lastUpdate w;
     updateCount := updateCount w;
     sockets := sockets w;
     timers := timers w;
     invalidated := invalidated w;
     console := console w |}.

Definition with_lastMessage (x : JSValue) (w : World) : World :=
  {| isConnected := isConnected w;
     connectionStatus := connectionStatus w;
     lastMessage := x;
     reconnectAttempts := reconnectAttempts w;
     ws_current := ws_current w;
     reconnectTimeoutRef := reconnectTimeoutRef w;
     isRealTimeEnabled := isRealTimeEnabled w;
     lastUpdate := lastUpdate w;
     updateCount := updateCount w;
     sockets := sockets w;
     timers := timers w;
     invalidated := invalidated w;
     console := console w |}.

Definition with_reconnectAttempts (x : nat) (w : World) : World :=
  {| isConnected := isConnected w;
     connectionStatus := connectionStatus w;
     lastMessage := lastMessage w;
     reconnectAttempts := x;
     ws_current := ws_current w;
     reconnectTimeoutRef := reconnectTimeoutRef w;
     isRealTimeEnabled := isRealTimeEnabled w;
     lastUpdate := lastUpdate w;
     updateCount := updateCount w;
     sockets := sockets w;
     timers := timers w;
     invalidated := invalidated w;
     console := console w |}.

Definition with_ws_current (x : option nat) (w : World) : World :=
  {| isConnected := isConnected w;
     connectionStatus := connectionStatus w;
     lastMessage := lastMessage w;
     reconnectAttempts := reconnectAttempts w;
     ws_current := x;
     reconnectTimeoutRef := reconnectTimeoutRef w;
     isRealTimeEnabled := isRealTimeEnabled w;
     lastUpdate := lastUpdate w;
     updateCount := updateCount w;
     sockets := sockets w;
     timers := timers w;
     invalidated := invalidated w;
     console := console w |}.

Definition with_reconnectTimeoutRef (x : option nat) (w : World) : World :=
  {| isConnected := isConnected w;
     connectionStatus := connectionStatus w;
     lastMessage := lastMessage w;
     reconnectAttempts := reconnectAttempts w;
     ws_current := ws_current w;
     reconnectTimeoutRef := x;
     isRealTimeEnabled := isRealTimeEnabled w;
     lastUpdate := lastUpdate w;
     updateCount := updateCount w;
     sockets := sockets w;
     timers := timers w;
     invalidated := invalidated w;
     console := console w |}.

Definition with_isRealTimeEnabled (x : bool) (w : World) : World :=
  {| isConnected := isConnected w;
     connectionStatus := connectionStatus w;
     lastMessage := lastMessage w;
     reconnectAttempts := reconnectAttempts w;
     ws_current := ws_current w;
     reconnectTimeoutRef := reconnectTimeoutRef w;
     isRealTimeEnabled := x;
     lastUpdate := lastUpdate w;
     updateCount := updateCount w;
     sockets := sockets w;
     timers := timers w;
     invalidated := invalidated w;
     console := console w |}.

Definition with_lastUpdate (x : option nat) (w : World) : World :=
  {| isConnected := isConnected w;
     connectionStatus := connectionStatus w;
     lastMessage := lastMessage w;
     reconnectAttempts := reconnectAttempts w;
     ws_current := ws_current w;
     reconnectTimeoutRef := reconnectTimeoutRef w;
     isRealTimeEnabled := isRealTimeEnabled w;
     lastUpdate := x;
     updateCount := updateCount w;
     sockets := sockets w;
     timers := timers w;
     invalidated := invalidated w;
     console := console w |}.

Definition with_updateCount (x : nat) (w : World) : World :=
  {| isConnected := isConnected w;
     connectionStatus := connectionStatus w;
     lastMessage := lastMessage w;
     reconnectAttempts := reconnectAttempts w;
     ws_current := ws_current w;
     reconnectTimeoutRef := reconnectTimeoutRef w;
     isRealTimeEnabled := isRealTimeEnabled w;
     lastUpdate := lastUpdate w;
     updateCount := x;
     sockets := sockets w;
     timers := timers w;
     invalidated := invalidated w;
     console := console w |}.

Definition with_sockets (x : list WebSocket) (w : World) : World :=
  {| isConnected := isConnected w;
     connectionStatus := connectionStatus w;
     lastMessage := lastMessage w;
     reconnectAttempts := reconnectAttempts w;
     ws_current := ws_current w;
     reconnectTimeoutRef := reconnectTimeoutRef w;
     isRealTimeEnabled := isRealTimeEnabled w;
     lastUpdate := lastUpdate w;
     updateCount := updateCount w;
     sockets := x;
     timers := timers w;
     invalidated := invalidated w;
     console := console w |}.

Definition with_timers (x : list Timer) (w : World) : World :=
  {| isConnected := isConnected w;
     connectionStatus := connectionStatus w;
     lastMessage := lastMessage w;
     reconnectAttempts := reconnectAttempts w;
     ws_current := ws_current w;
     reconnectTimeoutRef := reconnectTimeoutRef w;
     isRealTimeEnabled := isRealTimeEnabled w;
     lastUpdate := lastUpdate w;
     updateCount := updateCount w;
     sockets := sockets w;
     timers := x;
     invalidated := invalidated w;
     console := console w |}.

Definition with_invalidated (x : list (list string)) (w : World) : World :=
  {| isConnected := isConnected w;
     connectionStatus := connectionStatus w;
     lastMessage := lastMessage w;
     reconnectAttempts := reconnectAttempts w;
     ws_current := ws_current w;
     reconnectTimeoutRef := reconnectTimeoutRef w;
     isRealTimeEnabled := isRealTimeEnabled w;
     lastUpdate := lastUpdate w;
     updateCount := updateCount w;
     sockets := sockets w;
     timers := timers w;
     invalidated := x;
     console := console w |}.

Definition with_console (x : list ConsoleEntry) (w : World) : World :=
  {| isConnected := isConnected w;
     connectionStatus := connectionStatus w;
     lastMessage := lastMessage w;
     reconnectAttempts := reconnectAttempts w;
     ws_current := ws_current w;
     reconnectTimeoutRef := reconnectTimeoutRef w;
     isRealTimeEnabled := isRealTimeEnabled w;
     lastUpdate := lastUpdate w;
     updateCount := updateCount w;
     sockets := sockets w;
     timers := timers w;
     invalidated := invalidated w;
     console := x |}.

(** The hooks as first rendered: [useState] initial values, empty refs. *)
Definition initial : World :=
  {| isConnected := false;
     connectionStatus := disconnected;
     lastMessage := JNull;
     reconnectAttempts := 0;
     ws_current := None;
     reconnectTimeoutRef := None;
     isRealTimeEnabled := false;
     lastUpdate := None;
     updateCount := 0;
     sockets := [];
     timers := [];
     invalidated := [];
     console := [] |}.

Definition with_readyState (x : ReadyState) (s : WebSocket) : WebSocket :=
  {| ws_url := ws_url s; readyState := x; handlers := handlers s; sent := sent s |}.

Definition with_sent (x : list JSValue) (s : WebSocket) : WebSocket :=
  {| ws_url := ws_url s; readyState := readyState s; handlers := handlers s; sent := x |}.

Definition with_timer_state (x : TimerState) (t : Timer) : Timer :=
  {| delay := delay t; callback := callback t; timer_state := x |}.

Definition ReadyState_eqb (a b : ReadyState) : bool :=
  match a, b with
  | CONNECTING, CONNECTING | OPEN, OPEN | CLOSING, CLOSING | CLOSED, CLOSED => true
  | _, _ => false
  end.

Definition is_pending (t : Timer) : bool :=
  match timer_state t with Pending => true | _ => false end.

Definition is_open (s : WebSocket) : bool := ReadyState_eqb (readyState s) OPEN.

(** A socket that holds or is setting up a transport connection. *)
Definition is_live (s : WebSocket) : bool :=
  match readyState s with CONNECTING | OPEN => true | _ => false end.

Definition pending_timers (w : World) : nat := length (List.filter is_pending (timers w)).
Definition open_sockets (w : World) : nat := length (List.filter is_open (sockets w)).
Definition live_sockets (w : World) : nat := length (List.filter is_live (sockets w)).

(* ===================================================================== *)
(** ** Callbacks as computations over the world *)
(* ===================================================================== *)

(** How a piece of JavaScript ends: with a value or with a thrown error.
    State written before a throw stays written. *)
Inductive Completion (A : Type) : Type :=
  | Return (a : A)
  | Throw (e : JSError).
Arguments Return {A} a.
Arguments Throw {A} e.

Definition Eff (A : Type) : Type := World -> World * Completion A.

#[global] Instance Eff_ret : MRet Eff := fun A a w => (w, Return a).

#[global] Instance Eff_bind : MBind Eff := fun A B k m w =>
  match m w with
  | (w1, Return a) => k a w1
  | (w1, Throw e) => (w1, Throw e)
  end.

Definition throw {A : Type} (e : JSError) : Eff A := fun w => (w, Throw e).

(** [try { body } catch (error) { handler }] *)
Definition try_catch {A : Type} (body : Eff A) (handler : JSError -> Eff A) : Eff A :=
  fun w =>
    match body w with
    | (w1, Return a) => (w1, Return a)
    | (w1, Throw e) => handler e w1
    end.

Definition modify (f : World -> World) : Eff unit := fun w => (f w, Return tt).
Definition read {A : Type} (f : World -> A) : Eff A := fun w => (w, Return (f w)).

(** The world a callback leaves behind. *)
Definition exec {A : Type} (c : Eff A) (w : World) : World := fst (c w).
Definition completion {A : Type} (c : Eff A) (w : World) : Completion A := snd (c w).

(** *** React setters (value form and updater form, as the source uses them) *)

Definition setIsConnected (b : bool) : Eff unit := modify (with_isConnected b).
Definition setConnectionStatus (c : ConnectionStatus) : Eff unit :=
  modify (with_connectionStatus c).
Definition setLastMessage (m : JSValue) : Eff unit := modify (with_lastMessage m).
Definition setReconnectAttempts (f : nat -> nat) : Eff unit :=
  modify (fun w => with_reconnectAttempts (f (reconnectAttempts w)) w).
Definition setIsRealTimeEnabled (b : bool) : Eff unit := modify (with_isRealTimeEnabled b).
Definition setLastUpdate (date : nat) : Eff unit := modify (with_lastUpdate (Some date)).
Definition setUpdateCount (f : nat -> nat) : Eff unit :=
  modify (fun w => with_updateCount (f (updateCount w)) w).

(** *** Platform calls *)

Definition console_log_ (text : string) : Eff unit :=
  modify (fun w => with_console (console w ++ [console_log text]) w).
Definition console_error_ (text : string) : Eff unit :=
  modify (fun w => with_console (console w ++ [console_error text]) w).

(** [queryClient.invalidateQueries({ queryKey })] *)
Definition invalidateQueries (queryKey : list string) : Eff unit :=
  modify (fun w => with_invalidated (invalidated w ++ [queryKey]) w).

(** [JSON.parse(text)] *)
Definition JSON_parse_ (text : JSString) : Eff JSValue :=
  match JSON_parse text with
  | Some v => mret v
  | None => throw SyntaxError
  end.

(** [setTimeout(callback, delay)]: returns the handle of the new timer. *)
Definition setTimeout (cb : Render) (ms : nat) : Eff nat := fun w =>
  (with_timers (timers w ++ [{| delay := ms; callback := cb; timer_state := Pending |}]) w,
   Return (length (timers w))).

(** [clearTimeout(handle)]: cancels the timer when it has not fired yet.
    A handle is truthy, so [if (reconnectTimeoutRef.current)] asks whether
    the ref holds one. *)
Definition clearTimeout (t : nat) : Eff unit := modify (fun w =>
  match timers w !! t with
  | Some tm =>
      if is_pending tm then with_timers (<[t := with_timer_state Cleared tm]> (timers w)) w
      else w
  | None => w
  end).

(** [socket.close()]: starts the closing handshake of a socket that is
    connecting or open; the close event comes later. *)
Definition WebSocket_close (i : nat) : Eff unit := modify (fun w =>
  match sockets w !! i with
  | Some s =>
      if is_live s then with_sockets (<[i := with_readyState CLOSING s]> (sockets w)) w
      else w
  | None => w
  end).

(** [socket.send(JSON.stringify(message))] on an open socket. *)
Definition WebSocket_send (i : nat) (message : JSValue) : Eff unit := modify (fun w =>
  match sockets w !! i with
  | Some s => with_sockets (<[i := with_sent (sent s ++ [message]) s]> (sockets w)) w
  | None => w
  end).

(** The deployment: which urls the [WebSocket] constructor accepts (it throws
    a SyntaxError on the others) and the build-time variable
    [NEXT_PUBLIC_WS_URL]. *)
Record Platform : Type := {
  WebSocket_accepts : string -> bool;
  NEXT_PUBLIC_WS_URL : option string
}.

Definition truthy (s : string) : bool := negb (String.eqb s "").

Section Hooks.

Variable P : Platform.

(** [new WebSocket(url)] followed by the assignment of the four handlers,
    which are closures of render [r]. *)
Definition new_WebSocket (url : string) (r : Render) : Eff nat := fun w =>
  if WebSocket_accepts P url then
    (with_sockets (sockets w ++
       [{| ws_url := url; readyState := CONNECTING; handlers := r; sent := [] |}]) w,
     Return (length (sockets w)))
  else (w, Throw SyntaxError).

(* ===================================================================== *)
(** ** useRealTimeData: the callbacks handed to useWebSocket *)
(* ===================================================================== *)

Definition onMessage (r : Render) (date : nat) (message : JSValue) : Eff unit :=
  if negb (r_isRealTimeEnabled r) then mret tt
  else
    setLastUpdate date ;;
    setUpdateCount S ;;
    match get_property message "type" with
    | ReadThrows => throw TypeError
    | ty =>
        if strict_eq_literal ty "dashboard_metrics" then
          invalidateQueries ["dashboard-metrics"]
        else if strict_eq_literal ty "funnel_analysis" then
          invalidateQueries ["funnel-analysis"] ;;
          invalidateQueries ["dropoff-analysis"]
        else if strict_eq_literal ty "sentiment_analysis" then
          invalidateQueries ["sentiment-analysis"]
        else if strict_eq_literal ty "user_behavior" then
          invalidateQueries ["user-behavior"] ;;
          invalidateQueries ["user-journey-patterns"] ;;
          invalidateQueries ["similar-users"]
        else mret tt
    end.

Definition onConnect : Eff unit := console_log_ "Real-time data connection established".
Definition onDisconnect : Eff unit := console_log_ "Real-time data connection lost".
Definition onError : Eff unit := console_error_ "Real-time data connection error:".

(* ===================================================================== *)
(** ** useWebSocket *)
(* ===================================================================== *)

Definition ws_onopen (r : Render) : Eff unit :=
  setIsConnected true ;;
  setConnectionStatus connected ;;
  setReconnectAttempts (fun _ => 0) ;;
  onConnect.

Definition ws_onmessage (r : Render) (date : nat) (data : JSString) : Eff unit :=
  try_catch
    (message ← JSON_parse_ data;
     setLastMessage message ;;
     onMessage r date message)
    (fun _ => console_error_ "Failed to parse WebSocket message:").

Definition ws_onerror (r : Render) : Eff unit :=
  setConnectionStatus error ;;
  onError.

(** [connect] with the close handler and the timer callback it installs.
    The timer callback calls the [connect] it was created in, and that
    [connect] installs the same handlers again: the whole chain of reconnects
    runs on the constants of one render, the [r] passed along here. *)
Definition ws_onclose (r : Render) : Eff unit :=
  setIsConnected false ;;
  setConnectionStatus disconnected ;;
  onDisconnect ;;
  if r_reconnectAttempts r <? r_maxReconnectAttempts r then
    t ← setTimeout r (r_reconnectInterval r);
    modify (with_reconnectTimeoutRef (Some t))
  else mret tt.

Definition connect (r : Render) : Eff unit :=
  if negb (truthy (r_url r)) then
    setConnectionStatus disconnected ;;
    setIsConnected false
  else
    try_catch
      (setConnectionStatus connecting ;;
       s ← new_WebSocket (r_url r) r;
       modify (with_ws_current (Some s)))
      (fun _ =>
         setConnectionStatus error ;;
         console_error_ "WebSocket connection error:").

(** The callback given to [setTimeout] by the close handler. *)
Definition reconnect_timeout (r : Render) : Eff unit :=
  setReconnectAttempts S ;;
  connect r.

Definition disconnect : Eff unit :=
  t ← read reconnectTimeoutRef;
  match t with
  | Some h => clearTimeout h
  | None => mret tt
  end ;;
  s ← read ws_current;
  match s with
  | Some i => WebSocket_close i
  | None => mret tt
  end.

Definition sendMessage (message : JSValue) : Eff bool :=
  s ← read (fun w => i ← ws_current w; so ← sockets w !! i; Some (i, so));
  match s with
  | Some (i, so) =>
      if is_open so then
        WebSocket_send i message ;;
        mret true
      else mret false
  | None => mret false
  end.

(** The effect on [url] and its cleanup. *)
Definition url_effect (r : Render) : Eff unit :=
  if truthy (r_url r) then connect r
  else
    setConnectionStatus disconnected ;;
    setIsConnected false.

Definition url_effect_cleanup : Eff unit := disconnect.

(* ===================================================================== *)
(** ** useRealTimeData around useWebSocket *)
(* ===================================================================== *)

(** [process.env.NEXT_PUBLIC_WS_URL || "ws://localhost:8000/ws"] *)
Definition wsUrl : string :=
  match NEXT_PUBLIC_WS_URL P with
  | Some s => if truthy s then s else "ws://localhost:8000/ws"
  | None => "ws://localhost:8000/ws"
  end.

(** A render of [useRealTimeData]: it calls [useWebSocket] with the url
    [isRealTimeEnabled ? wsUrl : ""] and without the two reconnect options,
    which therefore take their defaults. *)
Definition render (w : World) : Render :=
  {| r_url := if isRealTimeEnabled w then wsUrl else "";
     r_reconnectAttempts := reconnectAttempts w;
     r_reconnectInterval := 3000;
     r_maxReconnectAttempts := 5;
     r_isRealTimeEnabled := isRealTimeEnabled w |}.

Definition toggleRealTime : Eff unit :=
  enabled ← read isRealTimeEnabled;
  setIsRealTimeEnabled (negb enabled).

(** A click on the toggle: the state flips, the hooks render again, and since
    the url differs from the one of the previous render React runs the
    cleanup of the old effect and then the effect of the new render. *)
Definition toggle_click : Eff unit :=
  toggleRealTime ;;
  r ← read render;
  url_effect_cleanup ;;
  url_effect r.

(** *** Events of the running page *)

Inductive Event : Type :=
  | Toggle
  | SockOpen (i : nat)
  | SockMessage (i : nat) (data : JSString) (date : nat)
  | SockError (i : nat)
  | SockClose (i : nat)
  | TimerFire (t : nat).

Definition set_readyState (i : nat) (x : ReadyState) (w : World) : World :=
  with_sockets (alter (with_readyState x) i (sockets w)) w.

Definition set_timer_state (t : nat) (x : TimerState) (w : World) : World :=
  with_timers (alter (with_timer_state x) t (timers w)) w.

(** One event: [None] when the platform cannot deliver it in this world (an
    open event needs a connecting socket, a message an open one, a close or
    error event a socket that is not closed yet, a timer must be pending). *)
Definition step (w : World) (ev : Event) : option World :=
  match ev with
  | Toggle => Some (exec toggle_click w)
  | SockOpen i =>
      s ← sockets w !! i;
      if ReadyState_eqb (readyState s) CONNECTING
      then Some (exec (ws_onopen (handlers s)) (set_readyState i OPEN w))
      else None
  | SockMessage i data date =>
      s ← sockets w !! i;
      if is_open s
      then Some (exec (ws_onmessage (handlers s) date data) w)
      else None
  | SockError i =>
      s ← sockets w !! i;
      if ReadyState_eqb (readyState s) CLOSED then None
      else Some (exec (ws_onerror (handlers s)) w)
  | SockClose i =>
      s ← sockets w !! i;
      if ReadyState_eqb (readyState s) CLOSED then None
      else Some (exec (ws_onclose (handlers s)) (set_readyState i CLOSED w))
  | TimerFire t =>
      tm ← timers w !! t;
      if is_pending tm
      then Some (exec (reconnect_timeout (callback tm)) (set_timer_state t Fired w))
      else None
  end.

Fixpoint run (w : World) (evs : list Event) : option World :=
  match evs with
  | [] => Some w
  | ev :: rest =>
      match step w ev with
      | Some w' => run w' rest
      | None => None
      end
  end.

(** Worlds the page can be in. *)
Definition reachable (w : World) : Prop := exists evs, run initial evs = Some w.

End Hooks.

(** A deployment whose socket constructor accepts the configured url. *)
Definition local_platform : Platform :=
  {| WebSocket_accepts := fun _ => true; NEXT_PUBLIC_WS_URL := None |}.


(* ===================================================================== *)
(** ** Vocabulary of the statements *)
(* ===================================================================== *)

(** The socket held in [ws.current]. *)
Definition current_socket (w : World) : option WebSocket :=
  i ← ws_current w; sockets w !! i.

(** [ws.current?.readyState === WebSocket.OPEN] *)
Definition socket_open (w : World) : bool :=
  match current_socket w with
  | Some s => is_open s
  | None => false
  end.

(** The socket [connect] constructs and the timer the close handler sets. *)
Definition fresh_socket (r : Render) : WebSocket :=
  {| ws_url := r_url r; readyState := CONNECTING; handlers := r; sent := [] |}.

Definition fresh_timer (r : Render) : Timer :=
  {| delay := r_reconnectInterval r; callback := r; timer_state := Pending |}.

(** The sockets after [close()] on socket [i], the timers after
    [clearTimeout] on timer [t]. *)
Definition close_in (i : nat) (l : list WebSocket) : list WebSocket :=
  match l !! i with
  | Some s => if is_live s then <[i := with_readyState CLOSING s]> l else l
  | None => l
  end.

Definition clear_in (t : nat) (l : list Timer) : list Timer :=
  match l !! t with
  | Some tm => if is_pending tm then <[t := with_timer_state Cleared tm]> l else l
  | None => l
  end.

(** No socket but the one in [ws.current] is connecting or open. *)
Definition at_most_current_live (w : World) : Prop :=
  forall i s, sockets w !! i = Some s -> is_live s = true -> ws_current w = Some i.

(** Frames of an event that [JSON.parse] accepts. *)
Definition parsed_frames (ev : Event) : nat :=
  match ev with
  | SockMessage _ data _ => match JSON_parse data with Some _ => 1 | None => 0 end
  | _ => 0
  end.

(** Every closure held by a socket or a timer satisfies [Q]. *)
Definition closures_satisfy (Q : Render -> Prop) (w : World) : Prop :=
  Forall Q (map handlers (sockets w)) /\ Forall Q (map callback (timers w)).

(** Every closure held by a socket or a timer was made by a render in which
    real-time updates were enabled. *)
Definition closures_enabled (w : World) : Prop :=
  closures_satisfy (fun r => r_isRealTimeEnabled r = true) w.

(** The frame of the specification's example. *)
Definition dashboard_metrics_frame : JSString :=
  json_text "{'type':'dashboard_metrics','data':{},'timestamp':'2024-01-01T00:00:00Z'}".

(** *** The routing table as the specification words it *)

Inductive EventType : Type :=
  | DashboardMetrics
  | FunnelAnalysis
  | SentimentAnalysis
  | UserBehavior
  | Unknown.

(** The event type named by the [type] member of a parsed frame. *)
Definition event_type (message : JSValue) : EventType :=
  match get_property message "type" with
  | ReadValue (JString s) =>
      if units_eqb s (units "dashboard_metrics") then DashboardMetrics
      else if units_eqb s (units "funnel_analysis") then FunnelAnalysis
      else if units_eqb s (units "sentiment_analysis") then SentimentAnalysis
      else if units_eqb s (units "user_behavior") then UserBehavior
      else Unknown
  | _ => Unknown
  end.

(** Event type to cache-key groups. *)
Definition routing_table (t : EventType) : list string :=
  match t with
  | DashboardMetrics => ["dashboard-metrics"]
  | FunnelAnalysis => ["funnel-analysis"; "dropoff-analysis"]
  | SentimentAnalysis => ["sentiment-analysis"]
  | UserBehavior => ["user-behavior"; "user-journey-patterns"; "similar-users"]
  | Unknown => []
  end.

(** Invalidating a key group is the call with the one-element query key. *)
Definition group_key (g : string) : list string := [g].

(** The invalidation calls the table prescribes for an event of the page. *)
Definition routed (ev : Event) : list (list string) :=
  match ev with
  | SockMessage _ data _ =>
      match JSON_parse data with
      | Some message => map group_key (routing_table (event_type message))
      | None => []
      end
  | _ => []
  end.

(** A connect failure and the retry that follows it: socket [k] closes
    without having opened and the timer set by its close handler fires. *)
Definition failed_connect (k : nat) : list Event := [SockClose k; TimerFire k].

(** Enabling real-time updates, then [n] connect failures in a row. *)
Definition failed_connects (n : nat) : list Event :=
  Toggle :: concat (map failed_connect (seq 0 n)).

(** The render that follows the first click on the toggle. *)
Definition first_render (P : Platform) : Render :=
  render P (with_isRealTimeEnabled true initial).

(** The world a trace leads to (the initial one when the trace cannot run). *)
Definition world_after (P : Platform) (evs : list Event) : World :=
  default initial (run P initial evs).

(* ===================================================================== *)
(** ** The status badge (components/layout/real-time-status.tsx) *)
(* ===================================================================== *)

(** [RealTimeStatus] renders from the values [useRealTimeData] returns, that
    is from the cells of the world. *)

Inductive StatusIcon : Type := PauseIcon | WifiIcon | WifiOffIcon.

Definition getStatusColor (w : World) : string :=
  if negb (isRealTimeEnabled w) then "bg-gray-500"
  else
    match connectionStatus w with
    | connected => "bg-green-500"
    | connecting => "bg-yellow-500"
    | error => "bg-red-500"
    | disconnected => "bg-gray-500"
    end.

Definition getStatusText (w : World) : string :=
  if negb (isRealTimeEnabled w) then "Paused"
  else
    match connectionStatus w with
    | connected => "Live"
    | connecting => "Connecting"
    | error => "Error"
    | disconnected => "Disconnected"
    end.

Definition getStatusIcon (w : World) : StatusIcon :=
  if negb (isRealTimeEnabled w) then PauseIcon
  else if isConnected w then WifiIcon
  else WifiOffIcon.

(* ===================================================================== *)
(** ** The alerts panel (components/dashboard/real-time-alerts.tsx) *)
(* ===================================================================== *)

Inductive AlertType : Type := critical | warning | info.

(** [dismissed] is optional in the source and only read through [!]: absent
    and [false] are the same to the component. *)
Record Alert : Type := {
  a_id : string;
  a_type : AlertType;
  a_title : string;
  a_message : JSString;
  a_timestamp : nat;
  a_dismissed : bool
}.

Definition AlertType_eqb (a b : AlertType) : bool :=
  match a, b with
  | critical, critical | warning, warning | info, info => true
  | _, _ => false
  end.

(** The updater of the effect: [[newAlert, ...prev.slice(0, 9)]] *)
Definition push_alert (newAlert : Alert) (prev : list Alert) : list Alert :=
  newAlert :: take 9 prev.

Definition dismissAlert (alertId : string) (prev : list Alert) : list Alert :=
  map (fun alert =>
         if String.eqb (a_id alert) alertId
         then {| a_id := a_id alert; a_type := a_type alert; a_title := a_title alert;
                 a_message := a_message alert; a_timestamp := a_timestamp alert;
                 a_dismissed := true |}
         else alert) prev.

Definition clearAllAlerts (prev : list Alert) : list Alert := [].

Definition activeAlerts (alerts : list Alert) : list Alert :=
  List.filter (fun alert => negb (a_dismissed alert)) alerts.

Definition criticalAlerts (alerts : list Alert) : list Alert :=
  List.filter (fun alert => AlertType_eqb (a_type alert) critical) (activeAlerts alerts).

Definition warningAlerts (alerts : list Alert) : list Alert :=
  List.filter (fun alert => AlertType_eqb (a_type alert) warning) (activeAlerts alerts).

(** What the user and the effect can do to the list. *)
Inductive AlertAction : Type :=
  | Push (newAlert : Alert)
  | Dismiss (alertId : string)
  | ClearAll.

Definition alert_action (alerts : list Alert) (act : AlertAction) : list Alert :=
  match act with
  | Push a => push_alert a alerts
  | Dismiss i => dismissAlert i alerts
  | ClearAll => clearAllAlerts alerts
  end.

(** [s.replace("_", " ")]: a string pattern replaces its first occurrence. *)
Fixpoint replace_first (pattern replacement : N) (s : JSString) : JSString :=
  match s with
  | [] => []
  | c :: r =>
      if N.eqb c pattern then replacement :: r
      else c :: replace_first pattern replacement r
  end.

Section AlertsEffect.

(** Two operations on IEEE doubles are taken from the platform: whether a
    number written as a JSON lexeme is truthy (neither zero nor NaN), and
    the comparison [v < literal] of a JSON value with a number literal. *)
Variable number_truthy : JSString -> bool.
Variable less_than : JSValue -> string -> bool.

Definition js_truthy (v : JSValue) : bool :=
  match v with
  | JNull => false
  | JBool b => b
  | JNumber n => number_truthy n
  | JString s => match s with [] => false | _ :: _ => true end
  | JArray _ => true
  | JObject _ => true
  end.

(** [lastMessage.data?.field] *)
Definition data_field (lastMessage : JSValue) (field : string) : PropertyRead :=
  match get_property lastMessage "data" with
  | ReadThrows => ReadThrows
  | ReadUndefined => ReadUndefined
  | ReadValue JNull => ReadUndefined
  | ReadValue d => get_property d field
  end.

(** [x < literal]; [undefined] compares as NaN. *)
Definition lt_literal (x : PropertyRead) (literal : string) : bool :=
  match x with
  | ReadValue v => less_than v literal
  | _ => false
  end.

(** The body of the effect on [[lastMessage, isConnected]].  [now] is the
    value of [Date.now()], [date] that of [new Date()].  The effect ends
    with [setAlerts]; when it throws before, the list stays as it was. *)
Definition alert_effect (lastMessage : JSValue) (isConnected : bool) (now date : nat)
    (prev : list Alert) : Completion (list Alert) :=
  if js_truthy lastMessage && isConnected then
    match get_property lastMessage "type" with
    | ReadValue (JString ty) =>
        let newAlert :=
          {| a_id := "alert-" +:+ pretty now;
             a_type := info;
             a_title := "Data Updated";
             a_message := replace_first 95 32 ty ++ units " data has been updated";
             a_timestamp := date;
             a_dismissed := false |} in
        let newAlert :=
          if strict_eq_literal (ReadValue (JString ty)) "funnel_analysis"
             && lt_literal (data_field lastMessage "conversion_rate") "5"
          then
            {| a_id := a_id newAlert;
               a_type := critical;
               a_title := "Low Conversion Rate Alert";
               a_message :=
                 units "Conversion rate has dropped below 5%. Immediate attention required.";
               a_timestamp := a_timestamp newAlert;
               a_dismissed := a_dismissed newAlert |}
          else if strict_eq_literal (ReadValue (JString ty)) "sentiment_analysis"
                  && lt_literal (data_field lastMessage "sentiment") "-0.5"
          then
            {| a_id := a_id newAlert;
               a_type := warning;
               a_title := "Negative Sentiment Detected";
               a_message :=
                 units "User sentiment has become significantly negative on one or more pages.";
               a_timestamp := a_timestamp newAlert;
               a_dismissed := a_dismissed newAlert |}
          else newAlert in
        Return (push_alert newAlert prev)
    | _ => Throw TypeError
    end
  else Return prev.

End AlertsEffect.

(* ===================================================================== *)
(** ** Query keys (hooks/use-dashboard-data.ts and the pages) *)
(* ===================================================================== *)

(** An element of a query key as the hooks build them: a string, a number
    or [undefined] for an optional parameter left out. *)
Inductive KeyPart (number : Type) : Type :=
  | KString (s : string)
  | KNumber (n : number)
  | KUndefined.
Arguments KString {number} s.
Arguments KNumber {number} n.
Arguments KUndefined {number}.

(** [value || fallback] on an optional string. *)
Definition or_default (value : option string) (fallback : string) : string :=
  match value with
  | Some s => if truthy s then s else fallback
  | None => fallback
  end.

Section QueryKeys.

Context {number : Type}.

Definition optional_string (o : option string) : KeyPart number :=
  match o with Some s => KString s | None => KUndefined end.

Definition optional_number (o : option number) : KeyPart number :=
  match o with Some n => KNumber n | None => KUndefined end.

Definition useDashboardMetrics_queryKey (startDate endDate : option string)
    : list (KeyPart number) :=
  [KString "dashboard-metrics";
   KString (or_default startDate "2015-01-01");
   KString (or_default endDate "2015-12-31")].

Definition useFunnelAnalysis_queryKey (deviceType startDate endDate : option string)
    : list (KeyPart number) :=
  [KString "funnel-analysis"; optional_string deviceType;
   KString (or_default startDate "2015-01-01");
   KString (or_default endDate "2015-12-31")].

Definition useSentimentAnalysis_queryKey (page startDate endDate : option string)
    : list (KeyPart number) :=
  [KString "sentiment-analysis"; optional_string page;
   KString (or_default startDate "2015-01-01");
   KString (or_default endDate "2015-12-31")].

Definition useConversionTrends_queryKey (period deviceType startDate endDate : option string)
    : list (KeyPart number) :=
  [KString "conversion-trends"; optional_string period; optional_string deviceType;
   KString (or_default startDate "2015-01-01");
   KString (or_default endDate "2015-12-31")].

Definition useUserJourneyPatterns_queryKey (deviceType : option string)
    (minSessions : option number) : list (KeyPart number) :=
  [KString "user-journey-patterns"; optional_string deviceType; optional_number minSessions].

Definition useCohortAnalysis_queryKey (cohortType deviceType : option string)
    : list (KeyPart number) :=
  [KString "cohort-analysis"; optional_string cohortType; optional_string deviceType].

(** The queries the pages and components declare themselves. *)
Definition SimilarUsers_queryKey (currentUserId : string) : list (KeyPart number) :=
  [KString "similar-users"; KString currentUserId].

Definition UsersPage_userBehavior_queryKey : list (KeyPart number) :=
  [KString "user-behavior"].

Definition UsersPage_journeyPatterns_queryKey : list (KeyPart number) :=
  [KString "user-journey-patterns"].

Definition FunnelPage_dropoff_queryKey (deviceFilter : string) : list (KeyPart number) :=
  [KString "dropoff-analysis"; KString deviceFilter].

(** The query cache matches a key against the key of an invalidation call
    element by element from the front: the call's key has to be a prefix. *)
Fixpoint partial_match (call : list string) (key : list (KeyPart number)) : bool :=
  match call, key with
  | [], _ => true
  | c :: call', KString s :: key' => String.eqb c s && partial_match call' key'
  | _ :: _, _ => false
  end.

(** Whether one of the calls made on the cache covers the query. *)
Definition invalidated_query (calls : list (list string)) (key : list (KeyPart number))
    : bool :=
  existsb (fun call => partial_match call key) calls.

End QueryKeys.

(** What a socket and a timer are made with and keep for life. *)
Definition socket_static (s : WebSocket) : string * Render := (ws_url s, handlers s).
Definition timer_static (t : Timer) : nat * Render := (delay t, callback t).

(** Index of the last element of a list, if it has one. *)
Definition last_index {A : Type} (l : list A) : option nat :=
  match length l with
  | O => None
  | S n => Some n
  end.

(** A render with the configured url and the default reconnect options. *)
Definition defaults_render (P : Platform) (r : Render) : Prop :=
  r_url r = wsUrl P /\ r_reconnectInterval r = 3000 /\ r_maxReconnectAttempts r = 5.

(** Every socket was constructed with the url of its render, every timer
    set with the interval of its render, and those renders have the
    configured url and the default options. *)
Definition page_defaults (P : Platform) (w : World) : Prop :=
  Forall (fun p => p.1 = r_url p.2 /\ defaults_render P p.2)
         (map socket_static (sockets w)) /\
  Forall (fun p => p.1 = r_reconnectInterval p.2 /\ defaults_render P p.2)
         (map timer_static (timers w)).

(** A deployment whose configured url the socket constructor rejects. *)
Definition rejecting_platform : Platform :=
  {| WebSocket_accepts := fun _ => false; NEXT_PUBLIC_WS_URL := Some "localhost:8000" |}.

(** The console line of the catch block of the message handler. *)
Definition parse_failure_line : ConsoleEntry :=
  console_error "Failed to parse WebSocket message:".

(** Every query key the message callback can pass to the cache. *)
Definition routable_calls : list (list string) :=
  concat (map (fun t => map group_key (routing_table t))
              [DashboardMetrics; FunnelAnalysis; SentimentAnalysis; UserBehavior]).

(** [sendMessage] called once per message, in order. *)
Definition sendMessages (messages : list JSValue) (w : World) : World :=
  fold_left (fun w' message => exec (sendMessage message) w') messages w.

(* ===================================================================== *)
(** ** Proof tools *)
(* ===================================================================== *)

#[global] Arguments units : simpl never.
#[global] Arguments json_text : simpl never.
#[global] Arguments JSON_parse : simpl never.
#[global] Arguments get_property : simpl never.
#[global] Arguments strict_eq_literal : simpl never.

(** Opens the setters, the platform calls and the plumbing of [Eff]. *)
Ltac eff_unfold :=
  unfold exec, completion,
    setIsConnected, setConnectionStatus, setLastMessage, setReconnectAttempts,
    setIsRealTimeEnabled, setLastUpdate, setUpdateCount, console_log_, console_error_,
    invalidateQueries, JSON_parse_, setTimeout, clearTimeout, WebSocket_close,
    WebSocket_send, onConnect, onDisconnect, onError in *;
  unfold mbind, mret, Eff_bind, Eff_ret, throw, try_catch, modify, read in *.

(** Opens the callbacks of the two hooks. *)
Ltac hooks_unfold :=
  unfold toggle_click, toggleRealTime, url_effect_cleanup, url_effect, disconnect,
    reconnect_timeout, ws_onclose, ws_onerror, ws_onopen,
    set_readyState, set_timer_state in *;
  unfold connect, new_WebSocket in *.

(** Splits on the condition of every [if] of the goal. *)
Ltac split_tests :=
  repeat (match goal with
          | |- context [if ?b then _ else _] => destruct b eqn:?
          end; cbn).

(** Splits a conjunction of closed facts and settles each by evaluation. *)
Ltac evaluate :=
  cbn zeta;
  repeat match goal with |- _ /\ _ => split end;
  vm_compute; reflexivity.

(* ===================================================================== *)
(** ** JSON.parse and its budget *)
(* ===================================================================== *)

Lemma skip_ws_length (s : JSString) : length (skip_ws s) <= length s.
Proof. induction s as [|c s IH]; cbn; [lia|]. destruct (is_ws c); cbn; lia. Qed.

Lemma skip_ws_cons (s r : JSString) (c : N) : skip_ws s = c :: r -> length r < length s.
Proof. intros H. pose proof (skip_ws_length s) as Hl. rewrite H in Hl. cbn in Hl. lia. Qed.

Lemma span_digits_length (s d r : JSString) : span_digits s = (d, r) -> length r <= length s.
Proof.
  revert d r. induction s as [|c s IH]; cbn; intros d r.
  - intros [= <- <-]. cbn. lia.
  - destruct (is_digit c).
    + destruct (span_digits s) as [d' r'] eqn:E. intros [= <- <-].
      specialize (IH _ _ eq_refl). lia.
    + intros [= <- <-]. cbn. lia.
Qed.

Lemma strip_prefix_length (p s r : JSString) :
  strip_prefix p s = Some r -> length r <= length s.
Proof.
  revert s. induction p as [|x p IH]; intros [|y s]; cbn; try discriminate.
  - intros [= <-]. cbn. lia.
  - intros [= <-]. cbn. lia.
  - destruct (N.eqb x y); [|discriminate]. intros H. apply IH in H. lia.
Qed.

Lemma parse_string_body_length (s t r : JSString) :
  parse_string_body s = Some (t, r) -> length r < length s.
Proof.
  remember (length s) as n eqn:Hn. revert s t r Hn.
  induction n as [n IH] using lt_wf_ind. intros s t r -> H.
  destruct s as [|c s]; [discriminate|].
  cbn [parse_string_body] in H.
  repeat (case_match; simplify_eq);
    match goal with
    | H1 : parse_string_body ?x = Some _ |- _ =>
        pose proof (IH (length x) ltac:(cbn; lia) x _ _ eq_refl H1)
    | _ => idtac
    end; cbn in *; lia.
Qed.

Lemma parse_number_length (s n r : JSString) :
  parse_number s = Some (n, r) -> length r < length s.
Proof.
  unfold parse_number, parse_int_part, parse_frac_part, parse_exp_part.
  intros H.
  repeat (case_match; simplify_eq);
    repeat match goal with
    | H1 : span_digits _ = _ |- _ => apply span_digits_length in H1
    end; cbn in *; lia.
Qed.

Ltac rest_facts :=
  repeat match goal with
  | H : _ ≫= _ = Some _ |- _ =>
      apply bind_Some in H; destruct H as ([] & ? & ?); simplify_eq
  | H : _ ≫= _ = Some _ |- _ =>
      apply bind_Some in H; destruct H as (? & ? & ?); simplify_eq
  | H : skip_ws _ = _ :: _ |- _ => apply skip_ws_cons in H
  | H : strip_prefix _ _ = Some _ |- _ => apply strip_prefix_length in H
  | H : parse_string_body _ = Some _ |- _ => apply parse_string_body_length in H
  | H : parse_number _ = Some _ |- _ => apply parse_number_length in H
  end.

Lemma parse_rest (f : nat) :
  (forall s v r, parse_value f s = Accepted v r -> length r < length s) /\
  (forall s vs r, parse_elements f s = Accepted vs r -> length r < length s) /\
  (forall s ms r, parse_members f s = Accepted ms r -> length r < length s).
Proof.
  induction f as [|f (IHv & IHe & IHm)]; [repeat split; intros; discriminate|].
  repeat split.
  - intros s v r H. cbn [parse_value] in H. unfold of_option in H.
    repeat (case_match; simplify_eq);
      repeat match goal with
      | H1 : parse_elements f _ = Accepted _ _ |- _ => apply IHe in H1
      | H1 : parse_members f _ = Accepted _ _ |- _ => apply IHm in H1
      end; rest_facts; cbn in *; lia.
  - intros s vs r H. cbn [parse_elements] in H.
    repeat (case_match; simplify_eq);
      repeat match goal with
      | H1 : parse_elements f _ = Accepted _ _ |- _ => apply IHe in H1
      | H1 : parse_value f _ = Accepted _ _ |- _ => apply IHv in H1
      end; rest_facts; cbn in *; lia.
  - intros s ms r H. cbn [parse_members] in H.
    repeat (case_match; simplify_eq);
      repeat match goal with
      | H1 : parse_members f _ = Accepted _ _ |- _ => apply IHm in H1
      | H1 : parse_value f _ = Accepted _ _ |- _ => apply IHv in H1
      end; rest_facts; cbn in *; lia.
Qed.

(** With a budget above twice the length of the input, no call runs out. *)
Lemma parse_fuel (f : nat) :
  (forall s, 2 * length s + 1 <= f -> parse_value f s <> OutOfFuel) /\
  (forall s, 2 * length s + 2 <= f -> parse_elements f s <> OutOfFuel) /\
  (forall s, 2 * length s + 2 <= f -> parse_members f s <> OutOfFuel).
Proof.
  induction f as [|f (IHv & IHe & IHm)]; [repeat split; intros; lia|].
  destruct (parse_rest f) as (Rv & Re & Rm).
  repeat split.
  - intros s Hf H. cbn [parse_value] in H. unfold of_option in H.
    repeat (case_match; simplify_eq);
      match goal with
      | H1 : parse_elements f ?x = OutOfFuel |- _ => apply (IHe x); [|exact H1]
      | H1 : parse_members f ?x = OutOfFuel |- _ => apply (IHm x); [|exact H1]
      end; rest_facts; cbn in *; lia.
  - intros s Hf H. cbn [parse_elements] in H.
    repeat (case_match; simplify_eq);
      repeat match goal with
      | H1 : parse_value f _ = Accepted _ _ |- _ => apply Rv in H1
      end;
      match goal with
      | H1 : parse_elements f ?x = OutOfFuel |- _ => apply (IHe x); [|exact H1]
      | H1 : parse_value f ?x = OutOfFuel |- _ => apply (IHv x); [|exact H1]
      end; rest_facts; cbn in *; lia.
  - intros s Hf H. cbn [parse_members] in H.
    repeat (case_match; simplify_eq);
      repeat match goal with
      | H1 : parse_value f _ = Accepted _ _ |- _ => apply Rv in H1
      end;
      match goal with
      | H1 : parse_members f ?x = OutOfFuel |- _ => apply (IHm x); [|exact H1]
      | H1 : parse_value f ?x = OutOfFuel |- _ => apply (IHv x); [|exact H1]
      end; rest_facts; cbn in *; lia.
Qed.

(** The budget [JSON_parse] gives is never used up: a [None] is a rejection
    by the grammar. *)
Lemma JSON_parse_fuel (text : JSString) :
  parse_value (2 * length text + 2) text <> OutOfFuel.
Proof. apply parse_fuel. lia. Qed.

(* ===================================================================== *)
(** ** sendMessage *)
(* ===================================================================== *)

Lemma sendMessage_result (message : JSValue) (w : World) :
  completion (sendMessage message) w = Return (socket_open w).
Proof.
  unfold sendMessage, socket_open, current_socket. eff_unfold. cbn.
  destruct (ws_current w) as [i|]; cbn; [|reflexivity].
  destruct (sockets w !! i) as [so|]; cbn; [|reflexivity].
  destruct (is_open so); reflexivity.
Qed.

Lemma sendMessage_closed (message : JSValue) (w : World) :
  socket_open w = false -> exec (sendMessage message) w = w.
Proof.
  unfold sendMessage, socket_open, current_socket. eff_unfold. cbn.
  destruct (ws_current w) as [i|]; cbn; [|reflexivity].
  destruct (sockets w !! i) as [so|]; cbn; [|reflexivity].
  intros ->. reflexivity.
Qed.

Lemma sendMessage_open (message : JSValue) (w : World) (i : nat) (so : WebSocket) :
  ws_current w = Some i -> sockets w !! i = Some so -> is_open so = true ->
  exec (sendMessage message) w =
    with_sockets (<[i := with_sent (sent so ++ [message]) so]> (sockets w)) w.
Proof.
  intros Hc Hs Ho. unfold sendMessage. eff_unfold. cbn.
  rewrite Hc. cbn. rewrite Hs. cbn. rewrite Ho. cbn. rewrite Hs. reflexivity.
Qed.

(** C9. [sendMessage] returns [true] exactly when the socket held in
    [ws.current] is open, and then the message is written to that socket.
    In every other world it returns [false] (it returns, it does not throw)
    and leaves the whole world as it was: nothing is queued anywhere for a
    later delivery. *)
Theorem sendMessage_succeeds_iff_open (message : JSValue) (w : World) :
  (completion (sendMessage message) w = Return true <-> socket_open w = true) /\
  (completion (sendMessage message) w = Return false <-> socket_open w = false) /\
  (socket_open w = false -> exec (sendMessage message) w = w) /\
  (socket_open w = true ->
   exists i so, ws_current w = Some i /\ sockets w !! i = Some so /\
     sockets (exec (sendMessage message) w) !! i =
       Some (with_sent (sent so ++ [message]) so)).
Proof.
  rewrite sendMessage_result.
  repeat split; try (intros; congruence).
  - apply sendMessage_closed.
  - intros Ho. unfold socket_open, current_socket in Ho.
    destruct (ws_current w) as [i|] eqn:Hc; cbn in Ho; [|discriminate].
    destruct (sockets w !! i) as [so|] eqn:Hs; [|discriminate].
    exists i, so. repeat split; try done.
    rewrite (sendMessage_open message w i so Hc Hs Ho). cbn.
    apply list_lookup_insert_eq. by eapply lookup_lt_Some.
Qed.

(** C10. [sendMessage] changes no state cell of either hook, no ref, no
    timer and no ready state: whatever the message and the world, the world
    after the call differs from the world before at most in the [sent] list
    of the sockets (the transport write). *)
Theorem sendMessage_frame (message : JSValue) (w : World) :
  let w' := exec (sendMessage message) w in
  connectionStatus w' = connectionStatus w /\
  isConnected w' = isConnected w /\
  reconnectAttempts w' = reconnectAttempts w /\
  lastMessage w' = lastMessage w /\
  updateCount w' = updateCount w /\
  lastUpdate w' = lastUpdate w /\
  isRealTimeEnabled w' = isRealTimeEnabled w /\
  ws_current w' = ws_current w /\
  reconnectTimeoutRef w' = reconnectTimeoutRef w /\
  timers w' = timers w /\
  invalidated w' = invalidated w /\
  console w' = console w /\
  map readyState (sockets w') = map readyState (sockets w) /\
  map handlers (sockets w') = map handlers (sockets w) /\
  map ws_url (sockets w') = map ws_url (sockets w).
Proof.
  cbn zeta.
  destruct (socket_open w) eqn:Ho.
  - unfold socket_open, current_socket in Ho.
    destruct (ws_current w) as [i|] eqn:Hc; cbn in Ho; [|discriminate].
    destruct (sockets w !! i) as [so|] eqn:Hs; [|discriminate].
    rewrite (sendMessage_open message w i so Hc Hs Ho). cbn.
    rewrite !list_fmap_insert. cbn.
    rewrite !list_insert_id; [repeat split; done | | |];
      rewrite list_lookup_fmap, Hs; reflexivity.
  - rewrite (sendMessage_closed message w Ho). repeat split; reflexivity.
Qed.

(* ===================================================================== *)
(** ** The message handler *)
(* ===================================================================== *)

(** No frame makes the handler throw: the [try] block covers the parse and
    the [onMessage] callback. *)
Lemma ws_onmessage_returns (r : Render) (date : nat) (data : JSString) (w : World) :
  completion (ws_onmessage r date data) w = Return tt.
Proof.
  unfold ws_onmessage, onMessage. eff_unfold.
  destruct (JSON_parse data) as [v|]; cbn; [|reflexivity].
  destruct (r_isRealTimeEnabled r); cbn; [|reflexivity].
  destruct (get_property v "type") as [| |ty]; cbn; try reflexivity;
    split_tests; reflexivity.
Qed.

Lemma ws_onmessage_malformed (r : Render) (date : nat) (data : JSString) (w : World) :
  JSON_parse data = None ->
  exec (ws_onmessage r date data) w =
    with_console (console w ++ [console_error "Failed to parse WebSocket message:"]) w.
Proof.
  intros H. unfold ws_onmessage. eff_unfold. rewrite H. reflexivity.
Qed.

(** What the handler does to the cells of the two hooks with a frame that
    parses, when the closure was made with real-time updates enabled. *)
Lemma ws_onmessage_parsed (r : Render) (date : nat) (data : JSString) (v : JSValue)
    (w : World) :
  JSON_parse data = Some v -> r_isRealTimeEnabled r = true ->
  let w' := exec (ws_onmessage r date data) w in
  lastMessage w' = v /\
  lastUpdate w' = Some date /\
  updateCount w' = S (updateCount w) /\
  invalidated w' = invalidated w ++ map group_key (routing_table (event_type v)).
Proof.
  intros Hp He. cbn zeta. unfold ws_onmessage, onMessage, event_type. eff_unfold.
  rewrite Hp, He. cbn.
  destruct (get_property v "type") as [| |ty]; cbn.
  - rewrite app_nil_r. repeat split; reflexivity.
  - unfold strict_eq_literal. cbn. rewrite app_nil_r. repeat split; reflexivity.
  - unfold strict_eq_literal.
    destruct ty; cbn; rewrite ?app_nil_r; try (repeat split; reflexivity).
    split_tests; rewrite <- ?app_assoc, ?app_nil_r; repeat split; reflexivity.
Qed.

Lemma ws_onmessage_disabled (r : Render) (date : nat) (data : JSString) (v : JSValue)
    (w : World) :
  JSON_parse data = Some v -> r_isRealTimeEnabled r = false ->
  exec (ws_onmessage r date data) w = with_lastMessage v w.
Proof.
  intros Hp He. unfold ws_onmessage, onMessage. eff_unfold.
  rewrite Hp, He. reflexivity.
Qed.

(** C6. A frame that [JSON.parse] rejects: the handler returns normally
    and the world after it is the world before it with one more line on the
    console.  The connection status, the flags, the attempt counter, the
    refs, every socket and every timer are as they were, and so are
    [lastMessage], [lastUpdate], [updateCount] and the invalidation calls. *)
Theorem malformed_frame_is_dropped (r : Render) (date : nat) (data : JSString) (w : World) :
  JSON_parse data = None ->
  let w' := exec (ws_onmessage r date data) w in
  completion (ws_onmessage r date data) w = Return tt /\
  connectionStatus w' = connectionStatus w /\
  isConnected w' = isConnected w /\
  reconnectAttempts w' = reconnectAttempts w /\
  ws_current w' = ws_current w /\
  reconnectTimeoutRef w' = reconnectTimeoutRef w /\
  sockets w' = sockets w /\
  timers w' = timers w /\
  isRealTimeEnabled w' = isRealTimeEnabled w /\
  lastMessage w' = lastMessage w /\
  lastUpdate w' = lastUpdate w /\
  updateCount w' = updateCount w /\
  invalidated w' = invalidated w.
Proof.
  intros H. cbn zeta. rewrite ws_onmessage_returns, (ws_onmessage_malformed _ _ _ _ H).
  repeat split; reflexivity.
Qed.

Lemma malformed_frame_is_dropped_witness :
  JSON_parse (units "not json") = None /\
  let w := with_updateCount 3 (with_connectionStatus connected initial) in
  let r := render local_platform w in
  let w' := exec (ws_onmessage r 0 (units "not json")) w in
  completion (ws_onmessage r 0 (units "not json")) w = Return tt /\
  connectionStatus w' = connectionStatus w /\
  isConnected w' = isConnected w /\
  reconnectAttempts w' = reconnectAttempts w /\
  ws_current w' = ws_current w /\
  reconnectTimeoutRef w' = reconnectTimeoutRef w /\
  sockets w' = sockets w /\
  timers w' = timers w /\
  isRealTimeEnabled w' = isRealTimeEnabled w /\
  lastMessage w' = lastMessage w /\
  lastUpdate w' = lastUpdate w /\
  updateCount w' = updateCount w /\
  invalidated w' = invalidated w.
Proof.
  split; [reflexivity|].
  apply malformed_frame_is_dropped. reflexivity.
Defined.

(* ===================================================================== *)
(** ** What each callback of useWebSocket does to the world *)
(* ===================================================================== *)

Lemma connect_opens (P : Platform) (r : Render) (w : World) :
  truthy (r_url r) = true -> WebSocket_accepts P (r_url r) = true ->
  exec (connect P r) w =
    with_ws_current (Some (length (sockets w)))
      (with_sockets (sockets w ++ [fresh_socket r]) (with_connectionStatus connecting w)).
Proof.
  intros Hu Ha. hooks_unfold. eff_unfold. rewrite Hu. cbn. rewrite Ha. reflexivity.
Qed.

Lemma connect_rejected (P : Platform) (r : Render) (w : World) :
  truthy (r_url r) = true -> WebSocket_accepts P (r_url r) = false ->
  exec (connect P r) w =
    with_console (console w ++ [console_error "WebSocket connection error:"])
      (with_connectionStatus error w).
Proof.
  intros Hu Ha. hooks_unfold. eff_unfold. rewrite Hu. cbn. rewrite Ha. reflexivity.
Qed.

Lemma connect_no_url (P : Platform) (r : Render) (w : World) :
  truthy (r_url r) = false ->
  exec (connect P r) w = with_isConnected false (with_connectionStatus disconnected w).
Proof.
  intros Hu. hooks_unfold. eff_unfold. rewrite Hu. reflexivity.
Qed.

(** The three ways [connect] can go. *)
Lemma connect_cases (P : Platform) (r : Render) (w : World) :
  exec (connect P r) w =
    with_ws_current (Some (length (sockets w)))
      (with_sockets (sockets w ++ [fresh_socket r]) (with_connectionStatus connecting w))
  \/ exec (connect P r) w =
    with_console (console w ++ [console_error "WebSocket connection error:"])
      (with_connectionStatus error w)
  \/ exec (connect P r) w = with_isConnected false (with_connectionStatus disconnected w).
Proof.
  destruct (truthy (r_url r)) eqn:Hu.
  - destruct (WebSocket_accepts P (r_url r)) eqn:Ha.
    + left. by apply connect_opens.
    + right; left. by apply connect_rejected.
  - right; right. by apply connect_no_url.
Qed.

Lemma connect_returns (P : Platform) (r : Render) (w : World) :
  completion (connect P r) w = Return tt.
Proof.
  hooks_unfold. eff_unfold.
  destruct (truthy (r_url r)); cbn; [|reflexivity].
  destruct (WebSocket_accepts P (r_url r)); reflexivity.
Qed.

Lemma disconnect_world (w : World) :
  exec disconnect w =
    with_sockets
      (match ws_current w with Some i => close_in i (sockets w) | None => sockets w end)
      (with_timers
         (match reconnectTimeoutRef w with
          | Some t => clear_in t (timers w)
          | None => timers w
          end) w).
Proof.
  unfold close_in, clear_in. hooks_unfold. eff_unfold.
  destruct w as [a b c d cur ref e f g ss ts inv con]. cbn.
  destruct ref as [t|]; cbn;
    [destruct (ts !! t) as [tm|]; cbn; [destruct (is_pending tm); cbn|]|];
    (destruct cur as [i|]; cbn;
     [destruct (ss !! i) as [so|]; cbn; [destruct (is_live so); cbn|]|]);
    reflexivity.
Qed.

Lemma ws_onclose_world (r : Render) (w : World) :
  exec (ws_onclose r) w =
    let w1 := with_console (console w ++ [console_log "Real-time data connection lost"])
                (with_connectionStatus disconnected (with_isConnected false w)) in
    if r_reconnectAttempts r <? r_maxReconnectAttempts r then
      with_reconnectTimeoutRef (Some (length (timers w)))
        (with_timers (timers w ++ [fresh_timer r]) w1)
    else w1.
Proof.
  hooks_unfold. eff_unfold. cbn zeta.
  destruct (r_reconnectAttempts r <? r_maxReconnectAttempts r); reflexivity.
Qed.

Lemma ws_onopen_world (r : Render) (w : World) :
  exec (ws_onopen r) w =
    with_console (console w ++ [console_log "Real-time data connection established"])
      (with_reconnectAttempts 0 (with_connectionStatus connected (with_isConnected true w))).
Proof. reflexivity. Qed.

Lemma ws_onerror_world (r : Render) (w : World) :
  exec (ws_onerror r) w =
    with_console (console w ++ [console_error "Real-time data connection error:"])
      (with_connectionStatus error w).
Proof. reflexivity. Qed.

Lemma reconnect_timeout_world (P : Platform) (r : Render) (w : World) :
  exec (reconnect_timeout P r) w =
    exec (connect P r) (with_reconnectAttempts (S (reconnectAttempts w)) w).
Proof. reflexivity. Qed.

Lemma toggle_click_world (P : Platform) (w : World) :
  exec (toggle_click P) w =
    let w1 := with_isRealTimeEnabled (negb (isRealTimeEnabled w)) w in
    let w2 := exec disconnect w1 in
    if truthy (r_url (render P w1)) then exec (connect P (render P w1)) w2
    else with_isConnected false (with_connectionStatus disconnected w2).
Proof.
  cbn zeta. unfold toggle_click, toggleRealTime, url_effect_cleanup, url_effect.
  eff_unfold. cbn.
  destruct (disconnect _) as [w2 [[]|e]] eqn:Hd.
  - replace w2 with (disconnect (with_isRealTimeEnabled (negb (isRealTimeEnabled w)) w)).1
      by (rewrite Hd; reflexivity).
    split_tests; reflexivity.
  - exfalso. revert Hd. hooks_unfold. eff_unfold. cbn.
    repeat (case_match; cbn; simplify_eq; try done).
Qed.

(* ===================================================================== *)
(** ** Events, one at a time *)
(* ===================================================================== *)

Lemma step_SockOpen (P : Platform) (w w' : World) (i : nat) :
  step P w (SockOpen i) = Some w' ->
  exists s, sockets w !! i = Some s /\ readyState s = CONNECTING /\
    w' = exec (ws_onopen (handlers s)) (set_readyState i OPEN w).
Proof.
  cbn. destruct (sockets w !! i) as [s|]; cbn; [|discriminate].
  destruct (readyState s) eqn:E; cbn; try discriminate.
  intros [= <-]. by exists s.
Qed.

Lemma step_SockMessage (P : Platform) (w w' : World) (i : nat) (data : JSString)
    (date : nat) :
  step P w (SockMessage i data date) = Some w' ->
  exists s, sockets w !! i = Some s /\ readyState s = OPEN /\
    w' = exec (ws_onmessage (handlers s) date data) w.
Proof.
  cbn. destruct (sockets w !! i) as [s|]; cbn; [|discriminate].
  unfold is_open. destruct (readyState s) eqn:E; cbn; try discriminate.
  intros [= <-]. by exists s.
Qed.

Lemma step_SockError (P : Platform) (w w' : World) (i : nat) :
  step P w (SockError i) = Some w' ->
  exists s, sockets w !! i = Some s /\ readyState s <> CLOSED /\
    w' = exec (ws_onerror (handlers s)) w.
Proof.
  cbn. destruct (sockets w !! i) as [s|]; cbn; [|discriminate].
  destruct (readyState s) eqn:E; cbn; try discriminate;
    intros [= <-]; exists s; repeat split; congruence.
Qed.

Lemma step_SockClose (P : Platform) (w w' : World) (i : nat) :
  step P w (SockClose i) = Some w' ->
  exists s, sockets w !! i = Some s /\ readyState s <> CLOSED /\
    w' = exec (ws_onclose (handlers s)) (set_readyState i CLOSED w).
Proof.
  cbn. destruct (sockets w !! i) as [s|]; cbn; [|discriminate].
  destruct (readyState s) eqn:E; cbn; try discriminate;
    intros [= <-]; exists s; repeat split; congruence.
Qed.

Lemma step_TimerFire (P : Platform) (w w' : World) (t : nat) :
  step P w (TimerFire t) = Some w' ->
  exists tm, timers w !! t = Some tm /\ timer_state tm = Pending /\
    w' = exec (reconnect_timeout P (callback tm)) (set_timer_state t Fired w).
Proof.
  cbn. destruct (timers w !! t) as [tm|]; cbn; [|discriminate].
  unfold is_pending. destruct (timer_state tm) eqn:E; cbn; try discriminate.
  intros [= <-]. by exists tm.
Qed.

Lemma step_Toggle (P : Platform) (w w' : World) :
  step P w Toggle = Some w' -> w' = exec (toggle_click P) w.
Proof. cbn. by intros [= <-]. Qed.

(** Induction over the worlds the page can be in. *)
Lemma reachable_ind_step (P : Platform) (I : World -> Prop) :
  I initial ->
  (forall w ev w', reachable P w -> I w -> step P w ev = Some w' -> I w') ->
  forall w, reachable P w -> I w.
Proof.
  intros H0 Hs.
  assert (Hgen : forall evs w0 w,
    reachable P w0 -> I w0 -> run P w0 evs = Some w -> I w).
  { induction evs as [|ev evs IH]; intros w0 w Hr Hi; cbn.
    - by intros [= <-].
    - destruct (step P w0 ev) as [w1|] eqn:E; [|discriminate].
      apply IH.
      + destruct Hr as [pre Hpre]. exists (pre ++ [ev]).
        clear -Hpre E. revert Hpre. generalize initial.
        induction pre as [|e pre IHp]; intros wi; cbn.
        * intros [= ->]. by rewrite E.
        * destruct (step P wi e); [apply IHp | discriminate].
      + eapply Hs; eauto. }
  intros w [evs Hrun]. eapply (Hgen evs initial w); eauto. by exists [].
Qed.

(** *** The closures a socket or a timer holds *)

Lemma handlers_alter (x : ReadyState) (i : nat) (l : list WebSocket) :
  map handlers (alter (with_readyState x) i l) = map handlers l.
Proof. revert i. induction l as [|s l IH]; intros [|i]; cbn; f_equal; auto. Qed.

Lemma callback_alter (x : TimerState) (t : nat) (l : list Timer) :
  map callback (alter (with_timer_state x) t l) = map callback l.
Proof. revert t. induction l as [|s l IH]; intros [|t]; cbn; f_equal; auto. Qed.

Lemma handlers_close_in (i : nat) (l : list WebSocket) :
  map handlers (close_in i l) = map handlers l.
Proof.
  unfold close_in. destruct (l !! i) as [s|] eqn:E; [|reflexivity].
  destruct (is_live s); [|reflexivity].
  change (map handlers ?x) with (handlers <$> x).
  rewrite list_fmap_insert. apply list_insert_id.
  by rewrite list_lookup_fmap, E.
Qed.

Lemma callback_clear_in (t : nat) (l : list Timer) :
  map callback (clear_in t l) = map callback l.
Proof.
  unfold clear_in. destruct (l !! t) as [tm|] eqn:E; [|reflexivity].
  destruct (is_pending tm); [|reflexivity].
  change (map callback ?x) with (callback <$> x).
  rewrite list_fmap_insert. apply list_insert_id.
  by rewrite list_lookup_fmap, E.
Qed.

Lemma disconnect_closures (w : World) :
  map handlers (sockets (exec disconnect w)) = map handlers (sockets w) /\
  map callback (timers (exec disconnect w)) = map callback (timers w).
Proof.
  rewrite disconnect_world. cbn. split.
  - destruct (ws_current w); [apply handlers_close_in | reflexivity].
  - destruct (reconnectTimeoutRef w); [apply callback_clear_in | reflexivity].
Qed.

Lemma connect_closures (P : Platform) (r : Render) (w : World) :
  (map handlers (sockets (exec (connect P r) w)) = map handlers (sockets w) ++ [r] \/
   map handlers (sockets (exec (connect P r) w)) = map handlers (sockets w)) /\
  map callback (timers (exec (connect P r) w)) = map callback (timers w).
Proof.
  destruct (connect_cases P r w) as [-> | [-> | ->]]; cbn.
  - rewrite map_app. cbn. auto.
  - auto.
  - auto.
Qed.

Lemma render_enabled (P : Platform) (w : World) :
  truthy (r_url (render P w)) = true -> r_isRealTimeEnabled (render P w) = true.
Proof. cbn. by destruct (isRealTimeEnabled w). Qed.

Lemma wsUrl_truthy (P : Platform) : truthy (wsUrl P) = true.
Proof.
  unfold wsUrl. destruct (NEXT_PUBLIC_WS_URL P) as [s|]; [|reflexivity].
  destruct (truthy s) eqn:E; [exact E | reflexivity].
Qed.

(** A property of closures that holds of every render with a truthy url
    holds of every closure the page ever installs. *)
Lemma step_closures (Q : Render -> Prop) (P : Platform) (w w' : World) (ev : Event) :
  (ev = Toggle -> isRealTimeEnabled w = false ->
   Q (render P (with_isRealTimeEnabled true w))) ->
  closures_satisfy Q w -> step P w ev = Some w' -> closures_satisfy Q w'.
Proof.
  intros HQ [Hs Ht] Hstep. unfold closures_satisfy. destruct ev.
  - apply step_Toggle in Hstep. subst w'. rewrite toggle_click_world. cbn zeta.
    set (w1 := with_isRealTimeEnabled _ w).
    destruct (disconnect_closures w1) as [Hd1 Hd2].
    destruct (truthy (r_url (render P w1))) eqn:Hu.
    + destruct (connect_closures P (render P w1) (exec disconnect w1)) as [[Hc|Hc] Hc2];
        rewrite Hc, Hc2, Hd1, Hd2; cbn; split; auto.
      apply Forall_app. split; [exact Hs|]. constructor; [|constructor].
      apply render_enabled in Hu. subst w1. cbn in Hu.
      destruct (isRealTimeEnabled w) eqn:He; [discriminate|].
      apply HQ; auto.
    + cbn. rewrite Hd1, Hd2. cbn. auto.
  - apply step_SockOpen in Hstep as (s & Hl & Hr & ->).
    rewrite ws_onopen_world. cbn. rewrite handlers_alter. auto.
  - apply step_SockMessage in Hstep as (s & Hl & Hr & ->).
    assert (Hsame : sockets (exec (ws_onmessage (handlers s) date data) w) = sockets w /\
                    timers (exec (ws_onmessage (handlers s) date data) w) = timers w).
    { destruct (JSON_parse data) as [v|] eqn:Hp.
      - unfold ws_onmessage, onMessage. eff_unfold. rewrite Hp. cbn.
        destruct (r_isRealTimeEnabled (handlers s)); cbn; [|auto].
        destruct (get_property v "type"); cbn; auto; split_tests; auto.
      - rewrite (ws_onmessage_malformed _ _ _ _ Hp). auto. }
    destruct Hsame as [-> ->]. auto.
  - apply step_SockError in Hstep as (s & Hl & Hr & ->).
    rewrite ws_onerror_world. cbn. auto.
  - apply step_SockClose in Hstep as (s & Hl & Hr & ->).
    rewrite ws_onclose_world. cbn zeta.
    destruct (_ <? _); cbn; rewrite handlers_alter; split; auto.
    rewrite map_app. apply Forall_app. split; [exact Ht|]. cbn.
    constructor; [|constructor].
    eapply Forall_forall; [exact Hs|]. apply list_elem_of_In.
    apply in_map. apply list_elem_of_In. eapply list_elem_of_lookup_2. exact Hl.
  - apply step_TimerFire in Hstep as (tm & Hl & Hp & ->).
    rewrite reconnect_timeout_world.
    destruct (connect_closures P (callback tm)
      (with_reconnectAttempts (S (reconnectAttempts (set_timer_state t Fired w)))
         (set_timer_state t Fired w))) as [[Hc|Hc] Hc2];
      rewrite Hc, Hc2; cbn; rewrite callback_alter; split; auto.
    apply Forall_app. split; [exact Hs|]. constructor; [|constructor].
    eapply Forall_forall; [exact Ht|]. apply list_elem_of_In.
    apply in_map. apply list_elem_of_In. eapply list_elem_of_lookup_2. exact Hl.
Qed.

Lemma reachable_closures_enabled (P : Platform) (w : World) :
  reachable P w -> closures_enabled w.
Proof.
  apply reachable_ind_step.
  - split; constructor.
  - intros w0 ev w' _ Hi Hstep. eapply step_closures; [|exact Hi|exact Hstep].
    intros _ _. reflexivity.
Qed.

(* ===================================================================== *)
(** ** The cells of useRealTimeData *)
(* ===================================================================== *)

(** Only a message event touches [lastMessage], [lastUpdate], [updateCount]
    and the query cache. *)
Lemma step_data_cells (P : Platform) (w w' : World) (ev : Event) :
  step P w ev = Some w' ->
  match ev with SockMessage _ _ _ => False | _ => True end ->
  updateCount w' = updateCount w /\ invalidated w' = invalidated w /\
  lastMessage w' = lastMessage w /\ lastUpdate w' = lastUpdate w.
Proof.
  intros Hstep Hne. destruct ev.
  - apply step_Toggle in Hstep. subst w'. rewrite toggle_click_world. cbn zeta.
    set (w1 := with_isRealTimeEnabled _ w).
    destruct (truthy (r_url (render P w1))).
    + destruct (connect_cases P (render P w1) (exec disconnect w1)) as [-> | [-> | ->]];
        rewrite disconnect_world; cbn; auto.
    + rewrite disconnect_world; cbn; auto.
  - apply step_SockOpen in Hstep as (s & _ & _ & ->). rewrite ws_onopen_world. cbn. auto.
  - destruct Hne.
  - apply step_SockError in Hstep as (s & _ & _ & ->). rewrite ws_onerror_world. cbn. auto.
  - apply step_SockClose in Hstep as (s & _ & _ & ->). rewrite ws_onclose_world. cbn zeta.
    destruct (_ <? _); cbn; auto.
  - apply step_TimerFire in Hstep as (tm & _ & _ & ->). rewrite reconnect_timeout_world.
    match goal with |- context [exec (connect P ?r) ?w0] =>
      destruct (connect_cases P r w0) as [-> | [-> | ->]] end; cbn; auto.
Qed.

Lemma reachable_handlers_enabled (P : Platform) (w : World) (i : nat) (s : WebSocket) :
  reachable P w -> sockets w !! i = Some s -> r_isRealTimeEnabled (handlers s) = true.
Proof.
  intros Hr Hl. destruct (reachable_closures_enabled P w Hr) as [Hs _].
  rewrite Forall_forall in Hs. apply Hs. apply list_elem_of_In. apply in_map.
  apply list_elem_of_In. eapply list_elem_of_lookup_2. exact Hl.
Qed.

(** C7. In every world the page can be in, an event changes [updateCount]
    by the number of frames it carries that [JSON.parse] accepts: a message
    event with a frame that parses adds exactly one, a message event with a
    frame that does not parse adds nothing, and neither do the open, close
    and error events of a socket, the firing of the reconnect timer or a
    click on the toggle.  The frame
    [{"type":"dashboard_metrics","data":{},"timestamp":"2024-01-01T00:00:00Z"}]
    adds exactly one. *)
Theorem updateCount_counts_parsed_frames (P : Platform) (w : World) :
  reachable P w ->
  (forall ev w', step P w ev = Some w' ->
     updateCount w' = updateCount w + parsed_frames ev) /\
  (forall i date w', step P w (SockMessage i dashboard_metrics_frame date) = Some w' ->
     updateCount w' = updateCount w + 1).
Proof.
  intros Hr.
  assert (Hall : forall ev w', step P w ev = Some w' ->
     updateCount w' = updateCount w + parsed_frames ev).
  { intros ev w' Hstep.
    destruct ev as [| i | i data date | i | i | t];
      try (destruct (step_data_cells P w w' _ Hstep I) as [-> _];
           cbn; lia).
    apply step_SockMessage in Hstep as (s & Hl & Ho & ->).
    pose proof (reachable_handlers_enabled P w i s Hr Hl) as He.
    cbn. destruct (JSON_parse data) as [v|] eqn:Hp.
    - destruct (ws_onmessage_parsed _ date data v w Hp He) as (_ & _ & -> & _). lia.
    - rewrite (ws_onmessage_malformed _ _ _ _ Hp). cbn. lia. }
  split; [exact Hall|].
  intros i date w' Hstep. apply Hall in Hstep. exact Hstep.
Qed.

Lemma updateCount_counts_parsed_frames_witness :
  let w := world_after local_platform [Toggle; SockOpen 0] in
  reachable local_platform w /\
  (forall ev w', step local_platform w ev = Some w' ->
     updateCount w' = updateCount w + parsed_frames ev) /\
  (forall i date w',
     step local_platform w (SockMessage i dashboard_metrics_frame date) = Some w' ->
     updateCount w' = updateCount w + 1).
Proof.
  cbn zeta.
  assert (Hr : reachable local_platform (world_after local_platform [Toggle; SockOpen 0]))
    by (exists [Toggle; SockOpen 0]; vm_compute; reflexivity).
  split; [exact Hr|].
  exact (updateCount_counts_parsed_frames local_platform _ Hr).
Defined.

(** C5, as the code has it.  In every world the page can be in, a frame
    that [JSON.parse] accepts is delivered whatever the parsed value is, with
    or without a [type] and a [data] member: [lastMessage] becomes the parsed
    value, [lastUpdate] the time of delivery, and [updateCount] grows by
    one. *)
Theorem parsed_frame_is_delivered (P : Platform) (w w' : World) (i : nat)
    (data : JSString) (date : nat) (v : JSValue) :
  reachable P w ->
  step P w (SockMessage i data date) = Some w' ->
  JSON_parse data = Some v ->
  lastMessage w' = v /\ lastUpdate w' = Some date /\
  updateCount w' = S (updateCount w).
Proof.
  intros Hr Hstep Hp.
  apply step_SockMessage in Hstep as (s & Hl & Ho & ->).
  pose proof (reachable_handlers_enabled P w i s Hr Hl) as He.
  destruct (ws_onmessage_parsed _ date data v w Hp He) as (H1 & H2 & H3 & _).
  auto.
Qed.

Lemma parsed_frame_is_delivered_witness :
  let w := world_after local_platform [Toggle; SockOpen 0] in
  let w' := world_after local_platform
              [Toggle; SockOpen 0; SockMessage 0 (json_text "{'data':1}") 9] in
  reachable local_platform w /\
  step local_platform w (SockMessage 0 (json_text "{'data':1}") 9) = Some w' /\
  JSON_parse (json_text "{'data':1}") = Some (JObject [(units "data", JNumber (units "1"))]) /\
  lastMessage w' = JObject [(units "data", JNumber (units "1"))] /\
  lastUpdate w' = Some 9 /\
  updateCount w' = S (updateCount w).
Proof.
  cbn zeta.
  assert (Hr : reachable local_platform (world_after local_platform [Toggle; SockOpen 0]))
    by (exists [Toggle; SockOpen 0]; vm_compute; reflexivity).
  split; [exact Hr|]. split; [vm_compute; reflexivity|]. split; [vm_compute; reflexivity|].
  apply (parsed_frame_is_delivered local_platform _ _ 0 (json_text "{'data':1}") 9);
    [exact Hr | vm_compute; reflexivity | vm_compute; reflexivity].
Defined.

(** C5, as the specification has it, fails on the frame [{}]: it parses, it
    has neither a [type] nor a [data] member, and it is delivered all the
    same. *)
Lemma frame_without_type_and_data_is_delivered :
  let w := world_after local_platform [Toggle; SockOpen 0] in
  let w' := world_after local_platform [Toggle; SockOpen 0; SockMessage 0 (json_text "{}") 9] in
  run local_platform initial [Toggle; SockOpen 0] = Some w /\
  step local_platform w (SockMessage 0 (json_text "{}") 9) = Some w' /\
  JSON_parse (json_text "{}") = Some (JObject []) /\
  get_property (JObject []) "type" = ReadUndefined /\
  get_property (JObject []) "data" = ReadUndefined /\
  lastMessage w = JNull /\ lastMessage w' = JObject [] /\
  lastUpdate w = None /\ lastUpdate w' = Some 9 /\
  updateCount w = 0 /\ updateCount w' = 1.
Proof. evaluate. Qed.

(** C8. In every world the page can be in, an event adds to the calls made
    on the query cache exactly the query keys of the table, in the order of
    the table and each once: a frame whose [type] is [dashboard_metrics]
    invalidates [dashboard-metrics]; [funnel_analysis] invalidates
    [funnel-analysis] and [dropoff-analysis]; [sentiment_analysis]
    invalidates [sentiment-analysis]; [user_behavior] invalidates
    [user-behavior], [user-journey-patterns] and [similar-users]; a frame
    with any other [type], or none, invalidates nothing, and so does every
    event that is not a parsed frame. *)
Theorem invalidation_follows_routing_table (P : Platform) (w w' : World) (ev : Event) :
  reachable P w ->
  step P w ev = Some w' ->
  invalidated w' = invalidated w ++ routed ev /\ NoDup (routed ev).
Proof.
  intros Hr Hstep. split.
  - destruct ev as [| i | i data date | i | i | t];
      try (destruct (step_data_cells P w w' _ Hstep I) as (_ & -> & _);
           cbn; by rewrite app_nil_r).
    apply step_SockMessage in Hstep as (s & Hl & Ho & ->).
    pose proof (reachable_handlers_enabled P w i s Hr Hl) as He.
    cbn. destruct (JSON_parse data) as [v|] eqn:Hp.
    + by destruct (ws_onmessage_parsed _ date data v w Hp He) as (_ & _ & _ & ->).
    + rewrite (ws_onmessage_malformed _ _ _ _ Hp). cbn. by rewrite app_nil_r.
  - destruct ev; cbn; try constructor.
    destruct (JSON_parse data) as [v|]; [|constructor].
    destruct (event_type v); cbn; repeat constructor;
      rewrite ?list_elem_of_In; cbn; intuition discriminate.
Qed.

Lemma invalidation_follows_routing_table_witness :
  let frame := json_text "{'type':'user_behavior','data':{}}" in
  let w := world_after local_platform [Toggle; SockOpen 0] in
  let w' := world_after local_platform [Toggle; SockOpen 0; SockMessage 0 frame 9] in
  reachable local_platform w /\
  step local_platform w (SockMessage 0 frame 9) = Some w' /\
  routed (SockMessage 0 frame 9) =
    [["user-behavior"]; ["user-journey-patterns"]; ["similar-users"]] /\
  invalidated w' = invalidated w ++ routed (SockMessage 0 frame 9) /\
  NoDup (routed (SockMessage 0 frame 9)).
Proof.
  cbn zeta.
  assert (Hr : reachable local_platform (world_after local_platform [Toggle; SockOpen 0]))
    by (exists [Toggle; SockOpen 0]; vm_compute; reflexivity).
  split; [exact Hr|]. split; [vm_compute; reflexivity|]. split; [vm_compute; reflexivity|].
  apply (invalidation_follows_routing_table local_platform);
    [exact Hr | vm_compute; reflexivity].
Defined.

(* ===================================================================== *)
(** ** The reconnect loop *)
(* ===================================================================== *)

Lemma run_closures (Q : Render -> Prop) (P : Platform) (evs : list Event) (w w' : World) :
  Forall (fun ev => ev <> Toggle) evs ->
  closures_satisfy Q w -> run P w evs = Some w' -> closures_satisfy Q w'.
Proof.
  revert w. induction evs as [|ev evs IH]; intros w Hnt Hc; cbn.
  - by intros [= <-].
  - destruct (step P w ev) as [w1|] eqn:E; [|discriminate].
    inversion Hnt as [|? ? Hev Hrest]; subst.
    apply IH; [exact Hrest|].
    eapply step_closures; [|exact Hc|exact E]. intros ->. by destruct Hev.
Qed.

(** Between two clicks on the toggle every handler and every timer callback
    is a closure of the render that followed the first of them: the close
    handler compares the [reconnectAttempts] of that render with the limit,
    not the counter the timer callback increments.  After the first click
    that render holds 0, so every close event sets a timer, whatever the
    counter has reached. *)
Lemma close_reschedules_whatever_the_count (P : Platform) (evs : list Event)
    (w w' : World) (i : nat) :
  run P initial (Toggle :: evs) = Some w ->
  Forall (fun ev => ev <> Toggle) evs ->
  step P w (SockClose i) = Some w' ->
  timers w' = timers w ++ [fresh_timer (first_render P)] /\
  reconnectTimeoutRef w' = Some (length (timers w)).
Proof.
  intros Hrun Hnt Hstep.
  cbn [run] in Hrun. destruct (step P initial Toggle) as [w1|] eqn:E1; [|discriminate].
  assert (Hc : closures_satisfy (fun r => r = first_render P) w).
  { eapply run_closures; [exact Hnt| |exact Hrun].
    eapply step_closures; [| |exact E1].
    - intros _ _. reflexivity.
    - split; constructor. }
  apply step_SockClose in Hstep as (s & Hl & _ & ->).
  assert (Hs : handlers s = first_render P).
  { destruct Hc as [Hc _]. rewrite Forall_forall in Hc. apply Hc.
    apply list_elem_of_In. apply in_map. apply list_elem_of_In.
    eapply list_elem_of_lookup_2. exact Hl. }
  rewrite ws_onclose_world, Hs. cbn. auto.
Qed.

(** C1, on the code.  Real-time updates are enabled and the connection
    fails five times in a row, each failure followed by its retry, so that
    [reconnectAttempts] reaches [maxReconnectAttempts] = 5 with no open event
    in between.  The sixth socket then closes too: the close handler still
    sets a reconnect timer, and when that timer fires a seventh socket is
    opened and the counter goes to 6. *)
Theorem reconnect_goes_on_past_the_limit :
  let w5 := world_after local_platform (failed_connects 5) in
  let w := world_after local_platform (failed_connects 5 ++ [SockClose 5]) in
  let w' := world_after local_platform (failed_connects 5 ++ [SockClose 5; TimerFire 5]) in
  run local_platform initial (failed_connects 5) = Some w5 /\
  reconnectAttempts w5 = 5 /\
  r_maxReconnectAttempts (render local_platform w5) = 5 /\
  map readyState (sockets w5) = [CLOSED; CLOSED; CLOSED; CLOSED; CLOSED; CONNECTING] /\
  step local_platform w5 (SockClose 5) = Some w /\
  connectionStatus w = disconnected /\
  reconnectAttempts w = 5 /\
  map timer_state (timers w) = [Fired; Fired; Fired; Fired; Fired; Pending] /\
  pending_timers w = 1 /\
  step local_platform w (TimerFire 5) = Some w' /\
  reconnectAttempts w' = 6 /\
  map readyState (sockets w') =
    [CLOSED; CLOSED; CLOSED; CLOSED; CLOSED; CLOSED; CONNECTING].
Proof. evaluate. Qed.

(* ===================================================================== *)
(** ** Disabling *)
(* ===================================================================== *)

Lemma close_in_not_live (i : nat) (l : list WebSocket) (s : WebSocket) :
  l !! i = Some s ->
  exists s', close_in i l !! i = Some s' /\ is_live s' = false.
Proof.
  intros Hl. unfold close_in. rewrite Hl.
  destruct (is_live s) eqn:E.
  - exists (with_readyState CLOSING s). split; [|reflexivity].
    apply list_lookup_insert_eq. by eapply lookup_lt_Some.
  - by exists s.
Qed.

Lemma clear_in_not_pending (t : nat) (l : list Timer) (tm : Timer) :
  l !! t = Some tm ->
  exists tm', clear_in t l !! t = Some tm' /\ is_pending tm' = false.
Proof.
  intros Hl. unfold clear_in. rewrite Hl.
  destruct (is_pending tm) eqn:E.
  - exists (with_timer_state Cleared tm). split; [|reflexivity].
    apply list_lookup_insert_eq. by eapply lookup_lt_Some.
  - by exists tm.
Qed.

(** What [disconnect] achieves when it returns: the timer named by
    [reconnectTimeoutRef] is not pending and the socket named by [ws.current]
    is neither connecting nor open.  The handlers of that socket stay in
    place. *)
Lemma disconnect_cancels_and_closes (w : World) :
  (forall t tm, reconnectTimeoutRef w = Some t -> timers w !! t = Some tm ->
     exists tm', timers (exec disconnect w) !! t = Some tm' /\ is_pending tm' = false) /\
  (forall i s, ws_current w = Some i -> sockets w !! i = Some s ->
     exists s', sockets (exec disconnect w) !! i = Some s' /\ is_live s' = false).
Proof.
  rewrite disconnect_world. cbn. split.
  - intros t tm -> Hl. by apply (clear_in_not_pending t (timers w) tm).
  - intros i s -> Hl. by apply (close_in_not_live i (sockets w) s).
Qed.

(** C2, on the code.  Real-time updates are enabled, the socket opens, and
    the user disables them.  When [disconnect] has returned no timer is
    pending and no socket is open.  Then the close event of the socket just
    closed arrives: its handler sets a reconnect timer although updates are
    disabled.  The timer fires and opens a new socket to the same url, which
    connects: updates are disabled, one socket is open and [isConnected] is
    true. *)
Theorem reconnect_after_disable :
  let w1 := world_after local_platform [Toggle; SockOpen 0; Toggle] in
  let w2 := world_after local_platform [Toggle; SockOpen 0; Toggle; SockClose 0] in
  let w3 := world_after local_platform
              [Toggle; SockOpen 0; Toggle; SockClose 0; TimerFire 0] in
  let w4 := world_after local_platform
              [Toggle; SockOpen 0; Toggle; SockClose 0; TimerFire 0; SockOpen 1] in
  run local_platform initial [Toggle; SockOpen 0; Toggle] = Some w1 /\
  isRealTimeEnabled w1 = false /\
  pending_timers w1 = 0 /\ open_sockets w1 = 0 /\
  map readyState (sockets w1) = [CLOSING] /\
  step local_platform w1 (SockClose 0) = Some w2 /\
  isRealTimeEnabled w2 = false /\ pending_timers w2 = 1 /\
  step local_platform w2 (TimerFire 0) = Some w3 /\
  isRealTimeEnabled w3 = false /\
  map readyState (sockets w3) = [CLOSED; CONNECTING] /\
  map ws_url (sockets w3) = ["ws://localhost:8000/ws"; "ws://localhost:8000/ws"] /\
  step local_platform w3 (SockOpen 1) = Some w4 /\
  isRealTimeEnabled w4 = false /\
  open_sockets w4 = 1 /\ isConnected w4 = true /\ connectionStatus w4 = connected.
Proof. evaluate. Qed.

(* ===================================================================== *)
(** ** connect and the sockets already there *)
(* ===================================================================== *)

Lemma live_sockets_app (l1 l2 : list WebSocket) :
  length (List.filter is_live (l1 ++ l2)) =
  length (List.filter is_live l1) + length (List.filter is_live l2).
Proof. by rewrite List.filter_app, length_app. Qed.

Lemma toggle_closes_current (P : Platform) (w : World) (i : nat) (s : WebSocket) :
  ws_current w = Some i -> sockets w !! i = Some s ->
  exists s', sockets (exec (toggle_click P) w) !! i = Some s' /\ is_live s' = false.
Proof.
  intros Hc Hl. rewrite toggle_click_world. cbn zeta.
  set (w1 := with_isRealTimeEnabled _ w).
  destruct (disconnect_cancels_and_closes w1) as [_ Hd].
  destruct (Hd i s Hc Hl) as (s' & Hl' & Hs').
  exists s'. split; [|exact Hs'].
  destruct (truthy (r_url (render P w1))).
  - destruct (connect_cases P (render P w1) (exec disconnect w1)) as [-> | [-> | ->]];
      cbn; try exact Hl'.
    rewrite lookup_app_l; [exact Hl' | by eapply lookup_lt_Some].
  - exact Hl'.
Qed.



Lemma filter_live_none (l : list WebSocket) :
  (forall j t, l !! j = Some t -> is_live t = false) -> List.filter is_live l = [].
Proof.
  induction l as [|a l IH]; intros H; cbn; [reflexivity|].
  rewrite (H 0 a eq_refl). apply IH. intros j t Hj. exact (H (S j) t Hj).
Qed.

Lemma one_live_index (l : list WebSocket) :
  (forall i j s t, l !! i = Some s -> l !! j = Some t ->
     is_live s = true -> is_live t = true -> i = j) ->
  length (List.filter is_live l) <= 1.
Proof.
  induction l as [|a l IH]; intros H; cbn; [lia|].
  destruct (is_live a) eqn:Ea; cbn.
  - assert (Hnone : List.filter is_live l = []).
    { clear IH. apply filter_live_none. intros j t Hj.
      destruct (is_live t) eqn:Et; [|reflexivity].
      specialize (H 0 (S j) a t eq_refl Hj Ea Et). discriminate. }
    rewrite Hnone. cbn. lia.
  - apply IH. intros i j s t Hi Hj Hs Ht.
    specialize (H (S i) (S j) s t Hi Hj Hs Ht). lia.
Qed.

Lemma at_most_current_live_count (w : World) :
  at_most_current_live w -> live_sockets w <= 1.
Proof.
  intros H. apply one_live_index. intros i j s t Hi Hj Hs Ht.
  pose proof (H i s Hi Hs) as H1. pose proof (H j t Hj Ht) as H2. congruence.
Qed.

Lemma disconnect_leaves_none_live (w : World) :
  at_most_current_live w ->
  forall i s, sockets (exec disconnect w) !! i = Some s -> is_live s = false.
Proof.
  intros Hinv i s. rewrite disconnect_world. cbn.
  destruct (ws_current w) as [c|] eqn:Hc.
  - destruct (decide (i = c)) as [->|Hne].
    + unfold close_in. destruct (sockets w !! c) as [sc|] eqn:Hsc.
      * destruct (is_live sc) eqn:Hl.
        -- rewrite list_lookup_insert_eq by (by eapply lookup_lt_Some).
           by intros [= <-].
        -- rewrite Hsc. by intros [= <-].
      * rewrite Hsc. discriminate.
    + intros Hi.
      assert (Hi' : sockets w !! i = Some s).
      { revert Hi. unfold close_in. destruct (sockets w !! c) as [sc|]; [|done].
        destruct (is_live sc); [|done]. by rewrite list_lookup_insert_ne. }
      destruct (is_live s) eqn:Hl; [|reflexivity].
      specialize (Hinv i s Hi' Hl). congruence.
  - intros Hi. destruct (is_live s) eqn:Hl; [|reflexivity].
    specialize (Hinv i s Hi Hl). congruence.
Qed.

Lemma connect_after_none_live (P : Platform) (r : Render) (w : World) :
  (forall i s, sockets w !! i = Some s -> is_live s = false) ->
  at_most_current_live (exec (connect P r) w).
Proof.
  intros Hnone i s.
  destruct (connect_cases P r w) as [-> | [-> | ->]]; cbn.
  - intros Hi Hl. destruct (decide (i < length (sockets w))) as [Hlt|Hge].
    + rewrite lookup_app_l in Hi by exact Hlt. rewrite (Hnone i s Hi) in Hl. discriminate.
    + assert (Hlen : i < length (sockets w ++ [fresh_socket r]))
        by (by eapply lookup_lt_Some).
      rewrite length_app in Hlen. cbn in Hlen. f_equal. lia.
  - intros Hi Hl. rewrite (Hnone i s Hi) in Hl. discriminate.
  - intros Hi Hl. rewrite (Hnone i s Hi) in Hl. discriminate.
Qed.

Lemma ws_onmessage_connection (r : Render) (date : nat) (data : JSString) (w : World) :
  sockets (exec (ws_onmessage r date data) w) = sockets w /\
  timers (exec (ws_onmessage r date data) w) = timers w /\
  ws_current (exec (ws_onmessage r date data) w) = ws_current w.
Proof.
  destruct (JSON_parse data) as [v|] eqn:Hp.
  - unfold ws_onmessage, onMessage. eff_unfold. rewrite Hp. cbn.
    destruct (r_isRealTimeEnabled r); cbn; [|auto].
    destruct (get_property v "type"); cbn; auto; split_tests; auto.
  - rewrite (ws_onmessage_malformed _ _ _ _ Hp). auto.
Qed.

(** At most the socket in [ws.current] is connecting or open: this holds at
    first and every event keeps it, a firing reconnect timer provided no
    socket is connecting or open when it fires. *)
Lemma step_at_most_current_live (P : Platform) (w w' : World) (ev : Event) :
  at_most_current_live w ->
  (forall t, ev = TimerFire t -> live_sockets w = 0) ->
  step P w ev = Some w' ->
  at_most_current_live w'.
Proof.
  intros Hinv Htimer Hstep. destruct ev.
  - apply step_Toggle in Hstep. subst w'. rewrite toggle_click_world. cbn zeta.
    set (w1 := with_isRealTimeEnabled _ w).
    assert (Hnone : forall i s, sockets (exec disconnect w1) !! i = Some s ->
                                is_live s = false)
      by (apply disconnect_leaves_none_live; exact Hinv).
    destruct (truthy _).
    + by apply connect_after_none_live.
    + intros i s Hi Hl. cbn in Hi. rewrite (Hnone i s Hi) in Hl. discriminate.
  - apply step_SockOpen in Hstep as (s & Hl & Hr & ->).
    rewrite ws_onopen_world. intros j s' Hj Hlive. cbn in *.
    destruct (decide (j = i)) as [->|Hne].
    + apply (Hinv i s Hl). unfold is_live. by rewrite Hr.
    + rewrite list_lookup_alter_ne in Hj by congruence. by apply (Hinv j s').
  - apply step_SockMessage in Hstep as (s & Hl & Hr & ->).
    destruct (ws_onmessage_connection (handlers s) date data w) as (Hs & _ & Hc).
    intros j s'. rewrite Hs, Hc. apply Hinv.
  - apply step_SockError in Hstep as (s & Hl & Hr & ->).
    rewrite ws_onerror_world. exact Hinv.
  - apply step_SockClose in Hstep as (s & Hl & Hr & ->).
    rewrite ws_onclose_world. cbn zeta.
    assert (Hgoal : forall j s', alter (with_readyState CLOSED) i (sockets w) !! j = Some s' ->
                     is_live s' = true -> ws_current w = Some j).
    { intros j s' Hj Hlive. destruct (decide (j = i)) as [->|Hne].
      - rewrite list_lookup_alter, Hl in Hj. cbn in Hj.
        rewrite decide_True in Hj by reflexivity. by simplify_eq.
      - rewrite list_lookup_alter_ne in Hj by congruence. by apply (Hinv j s'). }
    destruct (_ <? _); exact Hgoal.
  - apply step_TimerFire in Hstep as (tm & Hl & Hp & ->).
    rewrite reconnect_timeout_world. apply connect_after_none_live.
    cbn. intros j s Hj. specialize (Htimer t eq_refl).
    destruct (is_live s) eqn:Hlive; [|reflexivity]. exfalso.
    unfold live_sockets in Htimer. apply length_zero_iff_nil in Htimer.
    assert (Hin : In s (List.filter is_live (sockets w))).
    { apply List.filter_In. split; [|exact Hlive].
      apply list_elem_of_In. by eapply list_elem_of_lookup_2. }
    rewrite Htimer in Hin. destruct Hin.
Qed.

(** Clicks on the toggle in immediate succession, however many. *)
Lemma toggles_at_most_current_live (P : Platform) (n : nat) (w0 w : World) :
  at_most_current_live w0 ->
  run P w0 (replicate n Toggle) = Some w -> at_most_current_live w.
Proof.
  revert w0. induction n as [|n IH]; intros w0 Hinv; cbn [replicate run].
  - by intros [= <-].
  - destruct (step P w0 Toggle) as [w1|] eqn:E; [|discriminate].
    apply IH. eapply step_at_most_current_live; [exact Hinv| |exact E].
    intros t Ht. discriminate.
Qed.

(** C3, on the code.  The user enables, disables and enables real-time
    updates in immediate succession.  Right after the three clicks one socket
    is closing and one is connecting, so at most one holds a connection.
    Then the close event of the first socket arrives: its handler, still
    attached, sets a reconnect timer.  The second socket opens.  The timer
    fires and [connect] constructs a third socket to the same url without
    closing the second, which is open and stays open although [ws.current]
    has moved on.  The third socket opens: two sockets are open at once,
    with real-time updates enabled. *)
Theorem two_open_sockets_after_toggling :
  let w3 := world_after local_platform [Toggle; Toggle; Toggle] in
  let w4 := world_after local_platform [Toggle; Toggle; Toggle; SockClose 0] in
  let w5 := world_after local_platform [Toggle; Toggle; Toggle; SockClose 0; SockOpen 1] in
  let w6 := world_after local_platform
              [Toggle; Toggle; Toggle; SockClose 0; SockOpen 1; TimerFire 0] in
  let w7 := world_after local_platform
              [Toggle; Toggle; Toggle; SockClose 0; SockOpen 1; TimerFire 0; SockOpen 2] in
  run local_platform initial [Toggle; Toggle; Toggle] = Some w3 /\
  isRealTimeEnabled w3 = true /\
  map readyState (sockets w3) = [CLOSING; CONNECTING] /\
  live_sockets w3 = 1 /\ pending_timers w3 = 0 /\ ws_current w3 = Some 1 /\
  step local_platform w3 (SockClose 0) = Some w4 /\
  pending_timers w4 = 1 /\
  step local_platform w4 (SockOpen 1) = Some w5 /\
  map readyState (sockets w5) = [CLOSED; OPEN] /\
  step local_platform w5 (TimerFire 0) = Some w6 /\
  map readyState (sockets w6) = [CLOSED; OPEN; CONNECTING] /\
  map ws_url (sockets w6) =
    ["ws://localhost:8000/ws"; "ws://localhost:8000/ws"; "ws://localhost:8000/ws"] /\
  ws_current w6 = Some 2 /\ live_sockets w6 = 2 /\
  step local_platform w6 (SockOpen 2) = Some w7 /\
  isRealTimeEnabled w7 = true /\
  map readyState (sockets w7) = [CLOSED; OPEN; OPEN] /\
  open_sockets w7 = 2.
Proof. evaluate. Qed.

(* ===================================================================== *)
(** ** The attempt counter *)
(* ===================================================================== *)

Lemma connect_keeps_reconnectAttempts (P : Platform) (r : Render) (w : World) :
  reconnectAttempts (exec (connect P r) w) = reconnectAttempts w.
Proof. by destruct (connect_cases P r w) as [-> | [-> | ->]]. Qed.

Lemma toggle_keeps_reconnectAttempts (P : Platform) (w : World) :
  reconnectAttempts (exec (toggle_click P) w) = reconnectAttempts w.
Proof.
  rewrite toggle_click_world. cbn zeta. set (w1 := with_isRealTimeEnabled _ w).
  destruct (truthy _).
  - rewrite connect_keeps_reconnectAttempts, disconnect_world. reflexivity.
  - rewrite disconnect_world. reflexivity.
Qed.





(* ===================================================================== *)
(** ** Further properties of useWebSocket *)
(* ===================================================================== *)

Lemma close_in_idempotent (i : nat) (l : list WebSocket) :
  close_in i (close_in i l) = close_in i l.
Proof.
  destruct (l !! i) as [s|] eqn:E.
  - destruct (is_live s) eqn:Hl.
    + assert (H : close_in i l = <[i := with_readyState CLOSING s]> l)
        by (unfold close_in; by rewrite E, Hl).
      rewrite H. unfold close_in.
      rewrite list_lookup_insert_eq by (by eapply lookup_lt_Some). reflexivity.
    + assert (H : close_in i l = l) by (unfold close_in; by rewrite E, Hl).
      by rewrite !H.
  - assert (H : close_in i l = l) by (unfold close_in; by rewrite E).
    by rewrite !H.
Qed.

Lemma clear_in_idempotent (t : nat) (l : list Timer) :
  clear_in t (clear_in t l) = clear_in t l.
Proof.
  destruct (l !! t) as [tm|] eqn:E.
  - destruct (is_pending tm) eqn:Hl.
    + assert (H : clear_in t l = <[t := with_timer_state Cleared tm]> l)
        by (unfold clear_in; by rewrite E, Hl).
      rewrite H. unfold clear_in.
      rewrite list_lookup_insert_eq by (by eapply lookup_lt_Some). reflexivity.
    + assert (H : clear_in t l = l) by (unfold clear_in; by rewrite E, Hl).
      by rewrite !H.
  - assert (H : clear_in t l = l) by (unfold clear_in; by rewrite E).
    by rewrite !H.
Qed.

Lemma length_close_in (i : nat) (l : list WebSocket) : length (close_in i l) = length l.
Proof.
  unfold close_in. destruct (l !! i) as [s|]; [|reflexivity].
  destruct (is_live s); [apply length_insert | reflexivity].
Qed.

Lemma length_clear_in (t : nat) (l : list Timer) : length (clear_in t l) = length l.
Proof.
  unfold clear_in. destruct (l !! t) as [s|]; [|reflexivity].
  destruct (is_pending s); [apply length_insert | reflexivity].
Qed.

Lemma disconnect_returns (w : World) : completion disconnect w = Return tt.
Proof.
  hooks_unfold. eff_unfold.
  destruct w as [a b c d cur ref e f g ss ts inv con]. cbn.
  destruct ref as [t|]; cbn;
    [destruct (ts !! t) as [tm|]; cbn; [destruct (is_pending tm); cbn|]|];
    (destruct cur as [i|]; cbn;
     [destruct (ss !! i) as [so|]; cbn; [destruct (is_live so); cbn|]|]);
    reflexivity.
Qed.

(** X1. [disconnect] can be called any number of times: a second call
    changes nothing.  It returns normally and writes no state cell and no
    ref: [connectionStatus], [isConnected] and [reconnectAttempts] keep their
    values (they change when the close event arrives, not before), and
    [ws.current] and [reconnectTimeoutRef] go on naming the socket and the
    timer they named.  No socket and no timer is created or removed. *)
Theorem disconnect_idempotent (w : World) :
  let w' := exec disconnect w in
  exec disconnect w' = w' /\
  completion disconnect w = Return tt /\
  connectionStatus w' = connectionStatus w /\
  isConnected w' = isConnected w /\
  reconnectAttempts w' = reconnectAttempts w /\
  ws_current w' = ws_current w /\
  reconnectTimeoutRef w' = reconnectTimeoutRef w /\
  length (sockets w') = length (sockets w) /\
  length (timers w') = length (timers w).
Proof.
  cbn zeta. rewrite disconnect_returns. rewrite !disconnect_world. cbn.
  repeat split.
  - destruct w as [a b c d cur ref e f g ss ts inv con]. cbn.
    destruct cur as [i|], ref as [t|]; cbn;
      rewrite ?close_in_idempotent, ?clear_in_idempotent; reflexivity.
  - destruct (ws_current w); [apply length_close_in | reflexivity].
  - destruct (reconnectTimeoutRef w); [apply length_clear_in | reflexivity].
Qed.

Lemma filter_insert_le {A : Type} (f : A -> bool) (l : list A) (i : nat) (x y : A) :
  l !! i = Some x -> f y = false ->
  length (List.filter f (<[i := y]> l)) <= length (List.filter f l).
Proof.
  intros Hl Hy. revert i Hl. induction l as [|a l IH]; intros i Hl.
  - by rewrite lookup_nil in Hl.
  - destruct i as [|i]; cbn.
    + rewrite Hy. destruct (f a); cbn; lia.
    + cbn in Hl. specialize (IH i Hl).
      destruct (f a); cbn; [apply le_n_S|]; exact IH.
Qed.

(** X2. When [disconnect] returns, the timer named by [reconnectTimeoutRef]
    is not pending and the socket named by [ws.current] is neither connecting
    nor open; every other timer and socket is as it was, so the numbers of
    pending timers and of sockets connecting or open have not grown. *)
Theorem disconnect_cancels_timer_and_closes_socket (w : World) :
  let w' := exec disconnect w in
  (forall t tm, reconnectTimeoutRef w = Some t -> timers w !! t = Some tm ->
     exists tm', timers w' !! t = Some tm' /\ is_pending tm' = false) /\
  (forall i s, ws_current w = Some i -> sockets w !! i = Some s ->
     exists s', sockets w' !! i = Some s' /\ is_live s' = false) /\
  (forall t, reconnectTimeoutRef w <> Some t -> timers w' !! t = timers w !! t) /\
  (forall i, ws_current w <> Some i -> sockets w' !! i = sockets w !! i) /\
  pending_timers w' <= pending_timers w /\
  live_sockets w' <= live_sockets w.
Proof.
  cbn zeta. destruct (disconnect_cancels_and_closes w) as [H1 H2].
  split; [exact H1|]. split; [exact H2|].
  rewrite disconnect_world. unfold pending_timers, live_sockets. cbn.
  repeat split.
  - intros t Ht. destruct (reconnectTimeoutRef w) as [t0|]; [|reflexivity].
    unfold clear_in. destruct (timers w !! t0) as [tm|]; [|reflexivity].
    destruct (is_pending tm); [|reflexivity].
    apply list_lookup_insert_ne. congruence.
  - intros i Hi. destruct (ws_current w) as [i0|]; [|reflexivity].
    unfold close_in. destruct (sockets w !! i0) as [s|]; [|reflexivity].
    destruct (is_live s); [|reflexivity].
    apply list_lookup_insert_ne. congruence.
  - destruct (reconnectTimeoutRef w) as [t0|]; [|lia].
    unfold clear_in. destruct (timers w !! t0) as [tm|] eqn:E; [|lia].
    destruct (is_pending tm); [|lia].
    by eapply filter_insert_le.
  - destruct (ws_current w) as [i0|]; [|lia].
    unfold close_in. destruct (sockets w !! i0) as [s|] eqn:E; [|lia].
    destruct (is_live s); [|lia].
    by eapply filter_insert_le.
Qed.

(** X3. [connect] never throws.  Without a url it constructs nothing and
    reports [disconnected]; with a url the constructor rejects it constructs
    nothing either, reports [error], logs the failure and leaves
    [isConnected] alone.  In both cases [ws.current], the sockets and the
    timers are as before: a connect that fails this way is not retried. *)
Theorem connect_without_socket (P : Platform) (r : Render) (w : World) :
  let w' := exec (connect P r) w in
  completion (connect P r) w = Return tt /\
  (truthy (r_url r) = false ->
     connectionStatus w' = disconnected /\ isConnected w' = false /\
     sockets w' = sockets w /\ timers w' = timers w /\ ws_current w' = ws_current w /\
     console w' = console w) /\
  (truthy (r_url r) = true -> WebSocket_accepts P (r_url r) = false ->
     connectionStatus w' = error /\ isConnected w' = isConnected w /\
     sockets w' = sockets w /\ timers w' = timers w /\ ws_current w' = ws_current w /\
     console w' = console w ++ [console_error "WebSocket connection error:"]).
Proof.
  cbn zeta. split; [apply connect_returns|]. split.
  - intros Hu. rewrite (connect_no_url P r w Hu). repeat split; reflexivity.
  - intros Hu Ha. rewrite (connect_rejected P r w Hu Ha). repeat split; reflexivity.
Qed.

Lemma sendMessages_open (messages : list JSValue) (w : World) (i : nat) (so : WebSocket) :
  ws_current w = Some i -> sockets w !! i = Some so -> is_open so = true ->
  sendMessages messages w =
    with_sockets (<[i := with_sent (sent so ++ messages) so]> (sockets w)) w.
Proof.
  revert w so. induction messages as [|m ms IH]; intros w so Hc Hs Ho; cbn.
  - rewrite app_nil_r. destruct so, w; cbn in *.
    unfold with_sockets, with_sent. cbn. f_equal. symmetry. by apply list_insert_id.
  - rewrite (sendMessage_open m w i so Hc Hs Ho).
    unfold sendMessages in IH.
    rewrite (IH _ (with_sent (sent so ++ [m]) so)); cbn; try done.
    + rewrite list_insert_insert_eq. by rewrite <- app_assoc.
    + apply list_lookup_insert_eq. by eapply lookup_lt_Some.
Qed.

(** X4. Messages sent one after the other while the current socket is open
    are written to that socket in the order of the calls, each once, after
    what had been written before; nothing else in the world changes. *)
Theorem sendMessages_in_order (messages : list JSValue) (w : World) (i : nat)
    (so : WebSocket) :
  ws_current w = Some i -> sockets w !! i = Some so -> readyState so = OPEN ->
  let w' := sendMessages messages w in
  sockets w' !! i = Some (with_sent (sent so ++ messages) so) /\
  (forall j, j <> i -> sockets w' !! j = sockets w !! j) /\
  w' = with_sockets (sockets w') w.
Proof.
  intros Hc Hs Ho. cbn zeta.
  assert (Hopen : is_open so = true) by (unfold is_open; by rewrite Ho).
  rewrite (sendMessages_open messages w i so Hc Hs Hopen). cbn. repeat split.
  - apply list_lookup_insert_eq. by eapply lookup_lt_Some.
  - intros j Hj. apply list_lookup_insert_ne. congruence.
Qed.

Lemma sendMessages_in_order_witness :
  let w := world_after local_platform [Toggle; SockOpen 0] in
  let so := fresh_socket (first_render local_platform) in
  let ms := [JString (units "a"); JNull; JString (units "b")] in
  (ws_current w = Some 0 /\ sockets w !! 0 = Some (with_readyState OPEN so) /\
   readyState (with_readyState OPEN so) = OPEN) /\
  sockets (sendMessages ms w) !! 0 =
    Some (with_sent (sent (with_readyState OPEN so) ++ ms) (with_readyState OPEN so)) /\
  (forall j, j <> 0 -> sockets (sendMessages ms w) !! j = sockets w !! j) /\
  sendMessages ms w = with_sockets (sockets (sendMessages ms w)) w.
Proof.
  cbn zeta. split; [evaluate|].
  apply (sendMessages_in_order _ _ 0); vm_compute; reflexivity.
Defined.

(* ===================================================================== *)
(** ** Invariants of the running page *)
(* ===================================================================== *)

Lemma socket_static_alter (x : ReadyState) (i : nat) (l : list WebSocket) :
  map socket_static (alter (with_readyState x) i l) = map socket_static l.
Proof. revert i. induction l as [|s l IH]; intros [|i]; cbn; f_equal; auto. Qed.

Lemma timer_static_alter (x : TimerState) (t : nat) (l : list Timer) :
  map timer_static (alter (with_timer_state x) t l) = map timer_static l.
Proof. revert t. induction l as [|s l IH]; intros [|t]; cbn; f_equal; auto. Qed.

Lemma socket_static_close_in (i : nat) (l : list WebSocket) :
  map socket_static (close_in i l) = map socket_static l.
Proof.
  unfold close_in. destruct (l !! i) as [s|] eqn:E; [|reflexivity].
  destruct (is_live s); [|reflexivity].
  change (map socket_static ?x) with (socket_static <$> x).
  rewrite list_fmap_insert. apply list_insert_id.
  by rewrite list_lookup_fmap, E.
Qed.

Lemma timer_static_clear_in (t : nat) (l : list Timer) :
  map timer_static (clear_in t l) = map timer_static l.
Proof.
  unfold clear_in. destruct (l !! t) as [tm|] eqn:E; [|reflexivity].
  destruct (is_pending tm); [|reflexivity].
  change (map timer_static ?x) with (timer_static <$> x).
  rewrite list_fmap_insert. apply list_insert_id.
  by rewrite list_lookup_fmap, E.
Qed.

Lemma ws_onmessage_hook_cells (r : Render) (date : nat) (data : JSString) (w : World) :
  let w' := exec (ws_onmessage r date data) w in
  connectionStatus w' = connectionStatus w /\ isConnected w' = isConnected w /\
  reconnectAttempts w' = reconnectAttempts w /\
  reconnectTimeoutRef w' = reconnectTimeoutRef w /\
  isRealTimeEnabled w' = isRealTimeEnabled w.
Proof.
  cbn zeta. destruct (JSON_parse data) as [v|] eqn:Hp.
  - unfold ws_onmessage, onMessage. eff_unfold. rewrite Hp. cbn.
    destruct (r_isRealTimeEnabled r); cbn; [|auto].
    destruct (get_property v "type"); cbn; auto; split_tests; auto.
  - rewrite (ws_onmessage_malformed _ _ _ _ Hp). auto.
Qed.

(** What an event adds: at most one socket, made by the click that enables
    real-time updates or by a firing timer, and at most one timer, made by a
    close event.  What was there keeps its url, its delay and its closures. *)
Lemma step_appends (P : Platform) (w w' : World) (ev : Event) :
  step P w ev = Some w' ->
  exists ns nt,
    map socket_static (sockets w') = map socket_static (sockets w) ++ map socket_static ns /\
    map timer_static (timers w') = map timer_static (timers w) ++ map timer_static nt /\
    (ns = [] \/
     (ev = Toggle /\ isRealTimeEnabled w = false /\
      ns = [fresh_socket (render P (with_isRealTimeEnabled true w))]) \/
     (exists t tm, ev = TimerFire t /\ timers w !! t = Some tm /\
        ns = [fresh_socket (callback tm)])) /\
    (nt = [] \/
     (exists i s, ev = SockClose i /\ sockets w !! i = Some s /\
        nt = [fresh_timer (handlers s)])).
Proof.
  intros Hstep. destruct ev.
  - apply step_Toggle in Hstep. subst w'. rewrite toggle_click_world. cbn zeta.
    set (w1 := with_isRealTimeEnabled _ w).
    assert (Hd : map socket_static (sockets (exec disconnect w1)) =
                   map socket_static (sockets w) /\
                 map timer_static (timers (exec disconnect w1)) =
                   map timer_static (timers w)).
    { rewrite disconnect_world. cbn. split.
      - destruct (ws_current w); [apply socket_static_close_in | reflexivity].
      - destruct (reconnectTimeoutRef w); [apply timer_static_clear_in | reflexivity]. }
    destruct Hd as [Hd1 Hd2].
    destruct (truthy (r_url (render P w1))) eqn:Hu.
    + destruct (connect_cases P (render P w1) (exec disconnect w1)) as [-> | [-> | ->]];
        cbn [sockets timers with_ws_current with_sockets with_connectionStatus
             with_console with_isConnected].
      * exists [fresh_socket (render P w1)], []. rewrite map_app, Hd1, Hd2, app_nil_r.
        repeat split; auto. right; left.
        apply render_enabled in Hu. subst w1. cbn in Hu.
        destruct (isRealTimeEnabled w) eqn:He; [discriminate|]. auto.
      * exists [], []. rewrite Hd1, Hd2, !app_nil_r. auto.
      * exists [], []. rewrite Hd1, Hd2, !app_nil_r. auto.
    + exists [], []. cbn. rewrite Hd1, Hd2, !app_nil_r. auto.
  - apply step_SockOpen in Hstep as (s & Hl & Hr & ->). rewrite ws_onopen_world.
    exists [], []. cbn. rewrite socket_static_alter, !app_nil_r. auto.
  - apply step_SockMessage in Hstep as (s & Hl & Hr & ->).
    destruct (ws_onmessage_connection (handlers s) date data w) as (-> & -> & _).
    exists [], []. rewrite !app_nil_r. auto.
  - apply step_SockError in Hstep as (s & Hl & Hr & ->). rewrite ws_onerror_world.
    exists [], []. cbn. rewrite !app_nil_r. auto.
  - apply step_SockClose in Hstep as (s & Hl & Hr & ->). rewrite ws_onclose_world.
    cbn zeta. destruct (_ <? _); cbn.
    + exists [], [fresh_timer (handlers s)].
      rewrite socket_static_alter, map_app, app_nil_r. repeat split; auto.
      right. by exists i, s.
    + exists [], []. rewrite socket_static_alter, !app_nil_r. auto.
  - apply step_TimerFire in Hstep as (tm & Hl & Hp & ->). rewrite reconnect_timeout_world.
    match goal with |- context [exec (connect P ?r) ?w0] =>
      destruct (connect_cases P r w0) as [-> | [-> | ->]] end; cbn.
    + exists [fresh_socket (callback tm)], [].
      rewrite timer_static_alter, map_app, app_nil_r. repeat split; auto.
      right; right. by exists t, tm.
    + exists [], []. rewrite timer_static_alter, !app_nil_r. auto.
    + exists [], []. rewrite timer_static_alter, !app_nil_r. auto.
Qed.

Lemma fmap_prefix_lookup {A B : Type} (f : A -> B) (l l' : list A) (ns : list A)
    (i : nat) (x : A) :
  map f l' = map f l ++ map f ns -> l !! i = Some x ->
  exists x', l' !! i = Some x' /\ f x' = f x.
Proof.
  intros Hm Hl.
  assert (Hi : (f <$> l') !! i = Some (f x)).
  { change (f <$> l') with (map f l'). rewrite Hm.
    rewrite lookup_app_l by (rewrite length_map; by eapply lookup_lt_Some).
    change (map f l) with (f <$> l). by rewrite list_lookup_fmap, Hl. }
  rewrite list_lookup_fmap in Hi.
  destruct (l' !! i) as [x'|]; [|discriminate].
  exists x'. split; [reflexivity|]. cbn in Hi. congruence.
Qed.

Lemma fmap_suffix_length {A B : Type} (f : A -> B) (l l' ns : list A) :
  map f l' = map f l ++ map f ns -> length l' = length l + length ns.
Proof.
  intros Hm. apply (f_equal length) in Hm.
  by rewrite length_app, !length_map in Hm.
Qed.

(** X5. No event removes a socket or a timer or changes the url, the delay
    or the handlers it was made with.  An event adds at most one socket and
    at most one timer; a socket is added only by the click that enables
    real-time updates or by a firing reconnect timer, a timer only by a close
    event. *)
Theorem sockets_and_timers_only_grow (P : Platform) (w w' : World) (ev : Event) :
  step P w ev = Some w' ->
  (forall i s, sockets w !! i = Some s ->
     exists s', sockets w' !! i = Some s' /\
       ws_url s' = ws_url s /\ handlers s' = handlers s) /\
  (forall t tm, timers w !! t = Some tm ->
     exists tm', timers w' !! t = Some tm' /\
       delay tm' = delay tm /\ callback tm' = callback tm) /\
  length (sockets w) <= length (sockets w') <= S (length (sockets w)) /\
  length (timers w) <= length (timers w') <= S (length (timers w)) /\
  (length (sockets w) < length (sockets w') ->
     (ev = Toggle /\ isRealTimeEnabled w = false) \/ exists t, ev = TimerFire t) /\
  (length (timers w) < length (timers w') -> exists i, ev = SockClose i).
Proof.
  intros Hstep.
  destruct (step_appends P w w' ev Hstep) as (ns & nt & Hs & Ht & Hns & Hnt).
  pose proof (fmap_suffix_length _ _ _ _ Hs) as Ls.
  pose proof (fmap_suffix_length _ _ _ _ Ht) as Lt.
  assert (Lns : length ns <= 1).
  { destruct Hns as [-> | [(_ & _ & ->) | (t & tm & _ & _ & ->)]]; cbn; lia. }
  assert (Lnt : length nt <= 1).
  { destruct Hnt as [-> | (i & s & _ & _ & ->)]; cbn; lia. }
  repeat split; try lia.
  - intros i s Hl. destruct (fmap_prefix_lookup _ _ _ _ i s Hs Hl) as (s' & Hl' & Heq).
    exists s'. unfold socket_static in Heq. split; [exact Hl'|]. split; congruence.
  - intros t tm Hl. destruct (fmap_prefix_lookup _ _ _ _ t tm Ht Hl) as (tm' & Hl' & Heq).
    exists tm'. unfold timer_static in Heq. split; [exact Hl'|]. split; congruence.
  - intros Hlt.
    destruct Hns as [-> | [(-> & He & _) | (t & tm & -> & _ & _)]]; cbn in Ls.
    + lia.
    + by left.
    + right. by exists t.
  - intros Hlt. destruct Hnt as [-> | (i & s & -> & _ & _)]; cbn in Lt; [lia|].
    by exists i.
Qed.

Lemma sockets_and_timers_only_grow_witness :
  let w := world_after local_platform [Toggle; SockOpen 0] in
  let w' := world_after local_platform [Toggle; SockOpen 0; SockClose 0] in
  step local_platform w (SockClose 0) = Some w' /\
  (forall i s, sockets w !! i = Some s ->
     exists s', sockets w' !! i = Some s' /\
       ws_url s' = ws_url s /\ handlers s' = handlers s) /\
  (forall t tm, timers w !! t = Some tm ->
     exists tm', timers w' !! t = Some tm' /\
       delay tm' = delay tm /\ callback tm' = callback tm) /\
  length (sockets w) <= length (sockets w') <= S (length (sockets w)) /\
  length (timers w) <= length (timers w') <= S (length (timers w)) /\
  (length (sockets w) < length (sockets w') ->
     (SockClose 0 = Toggle /\ isRealTimeEnabled w = false) \/
     exists t, SockClose 0 = TimerFire t) /\
  (length (timers w) < length (timers w') -> exists i, SockClose 0 = SockClose i).
Proof.
  cbn zeta. split; [vm_compute; reflexivity|].
  apply (sockets_and_timers_only_grow local_platform). vm_compute; reflexivity.
Defined.

Lemma Forall_map_lookup {A B : Type} (f : A -> B) (Q : B -> Prop) (l : list A)
    (i : nat) (x : A) :
  Forall Q (map f l) -> l !! i = Some x -> Q (f x).
Proof.
  intros HF Hl. rewrite Forall_forall in HF. apply HF.
  apply list_elem_of_In. apply in_map. apply list_elem_of_In.
  by eapply list_elem_of_lookup_2.
Qed.

Lemma step_page_defaults (P : Platform) (w w' : World) (ev : Event) :
  page_defaults P w -> step P w ev = Some w' -> page_defaults P w'.
Proof.
  intros [Hs Ht] Hstep.
  destruct (step_appends P w w' ev Hstep) as (ns & nt & Es & Et & Hns & Hnt).
  unfold page_defaults. rewrite Es, Et. split; apply Forall_app; split; auto.
  - destruct Hns as [-> | [(_ & _ & ->) | (t & tm & _ & Hl & ->)]]; cbn.
    + constructor.
    + constructor; [|constructor]. cbn. by repeat split.
    + constructor; [|constructor]. cbn. split; [reflexivity|].
      by destruct (Forall_map_lookup timer_static _ _ t tm Ht Hl) as [_ H].
  - destruct Hnt as [-> | (i & s & _ & Hl & ->)]; cbn.
    + constructor.
    + constructor; [|constructor]. cbn. split; [reflexivity|].
      by destruct (Forall_map_lookup socket_static _ _ i s Hs Hl) as [_ H].
Qed.

Lemma reachable_page_defaults (P : Platform) (w : World) :
  reachable P w -> page_defaults P w.
Proof.
  apply reachable_ind_step.
  - split; constructor.
  - intros w0 ev w' _ Hi Hstep. by eapply step_page_defaults.
Qed.

(** X6. On the page, whatever the events, every socket ever constructed
    targets the configured url, which is never empty, and carries handlers
    with the default limit of 5 attempts; every reconnect timer ever set has
    the default delay of 3000 ms and reconnects to that same url. *)
Theorem sockets_and_timers_use_defaults (P : Platform) (w : World) :
  reachable P w ->
  (forall i s, sockets w !! i = Some s ->
     ws_url s = wsUrl P /\ truthy (ws_url s) = true /\
     r_url (handlers s) = wsUrl P /\ r_maxReconnectAttempts (handlers s) = 5) /\
  (forall t tm, timers w !! t = Some tm ->
     delay tm = 3000 /\ r_url (callback tm) = wsUrl P /\
     r_maxReconnectAttempts (callback tm) = 5).
Proof.
  intros Hr. destruct (reachable_page_defaults P w Hr) as [Hs Ht]. split.
  - intros i s Hl.
    destruct (Forall_map_lookup socket_static _ _ i s Hs Hl) as [H1 (H2 & H3 & H4)].
    cbn in *. rewrite H1, H2. repeat split; auto. apply wsUrl_truthy.
  - intros t tm Hl.
    destruct (Forall_map_lookup timer_static _ _ t tm Ht Hl) as [H1 (H2 & H3 & H4)].
    cbn in *. rewrite H1. auto.
Qed.

Lemma sockets_and_timers_use_defaults_witness :
  let w := world_after local_platform (failed_connects 2) in
  reachable local_platform w /\
  (forall i s, sockets w !! i = Some s ->
     ws_url s = wsUrl local_platform /\ truthy (ws_url s) = true /\
     r_url (handlers s) = wsUrl local_platform /\
     r_maxReconnectAttempts (handlers s) = 5) /\
  (forall t tm, timers w !! t = Some tm ->
     delay tm = 3000 /\ r_url (callback tm) = wsUrl local_platform /\
     r_maxReconnectAttempts (callback tm) = 5).
Proof.
  cbn zeta.
  assert (Hr : reachable local_platform (world_after local_platform (failed_connects 2)))
    by (exists (failed_connects 2); vm_compute; reflexivity).
  split; [exact Hr|]. exact (sockets_and_timers_use_defaults local_platform _ Hr).
Defined.

Lemma reachable_connected_isConnected (P : Platform) (w : World) :
  reachable P w -> connectionStatus w = connected -> isConnected w = true.
Proof.
  revert w. apply (reachable_ind_step P
    (fun w => connectionStatus w = connected -> isConnected w = true)).
  - discriminate.
  - intros w ev w' _ Hi Hstep. destruct ev.
    + apply step_Toggle in Hstep. subst w'. rewrite toggle_click_world. cbn zeta.
      set (w1 := with_isRealTimeEnabled _ w).
      destruct (truthy _).
      * destruct (connect_cases P (render P w1) (exec disconnect w1)) as [-> | [-> | ->]];
          cbn; discriminate.
      * cbn. discriminate.
    + apply step_SockOpen in Hstep as (s & _ & _ & ->). rewrite ws_onopen_world. reflexivity.
    + apply step_SockMessage in Hstep as (s & _ & _ & ->).
      destruct (ws_onmessage_hook_cells (handlers s) date data w) as (-> & -> & _).
      exact Hi.
    + apply step_SockError in Hstep as (s & _ & _ & ->). rewrite ws_onerror_world.
      cbn. discriminate.
    + apply step_SockClose in Hstep as (s & _ & _ & ->). rewrite ws_onclose_world.
      cbn zeta. destruct (_ <? _); cbn; discriminate.
    + apply step_TimerFire in Hstep as (tm & _ & _ & ->). rewrite reconnect_timeout_world.
      match goal with |- context [exec (connect P ?r) ?w0] =>
        destruct (connect_cases P r w0) as [-> | [-> | ->]] end; cbn; discriminate.
Qed.

(** X7. On the page [connectionStatus] is never [connected] while
    [isConnected] is false: the open handler sets the two together, and
    whatever clears [isConnected] moves the status away in the same
    callback.  The converse does not hold in the code: an error event leaves
    [isConnected] as it is and sets the status to [error]. *)
Theorem connected_implies_isConnected (P : Platform) (w : World) :
  reachable P w ->
  (connectionStatus w = connected -> isConnected w = true) /\
  (forall i w', step P w (SockError i) = Some w' ->
     connectionStatus w' = error /\ isConnected w' = isConnected w).
Proof.
  intros Hr. split.
  - by apply (reachable_connected_isConnected P).
  - intros i w' Hstep. apply step_SockError in Hstep as (s & _ & _ & ->).
    rewrite ws_onerror_world. split; reflexivity.
Qed.

Lemma connected_implies_isConnected_witness :
  let w := world_after local_platform [Toggle; SockOpen 0] in
  let w' := world_after local_platform [Toggle; SockOpen 0; SockError 0] in
  reachable local_platform w /\ connectionStatus w = connected /\ isConnected w = true /\
  step local_platform w (SockError 0) = Some w' /\
  connectionStatus w' = error /\ isConnected w' = isConnected w.
Proof.
  cbn zeta.
  assert (Hr : reachable local_platform (world_after local_platform [Toggle; SockOpen 0]))
    by (exists [Toggle; SockOpen 0]; vm_compute; reflexivity).
  assert (Hc : connectionStatus (world_after local_platform [Toggle; SockOpen 0]) = connected)
    by (vm_compute; reflexivity).
  destruct (connected_implies_isConnected local_platform _ Hr) as [H1 H2].
  split; [exact Hr|]. split; [exact Hc|]. split; [exact (H1 Hc)|].
  split; [vm_compute; reflexivity|]. apply (H2 0). vm_compute; reflexivity.
Defined.

(** X8. On the page [lastUpdate] is set exactly when [updateCount] is not
    0: the two are written together, by [onMessage] alone. *)
Theorem lastUpdate_set_iff_counted (P : Platform) (w : World) :
  reachable P w -> (lastUpdate w = None <-> updateCount w = 0).
Proof.
  revert w. apply (reachable_ind_step P
    (fun w => lastUpdate w = None <-> updateCount w = 0)).
  - split; reflexivity.
  - intros w ev w' Hr Hi Hstep.
    destruct ev as [| i | i data date | i | i | t];
      try (destruct (step_data_cells P w w' _ Hstep I) as (-> & _ & _ & ->); exact Hi).
    apply step_SockMessage in Hstep as (s & Hl & Ho & ->).
    pose proof (reachable_handlers_enabled P w i s Hr Hl) as He.
    destruct (JSON_parse data) as [v|] eqn:Hp.
    + destruct (ws_onmessage_parsed _ date data v w Hp He) as (_ & -> & -> & _).
      split; discriminate.
    + rewrite (ws_onmessage_malformed _ _ _ _ Hp). exact Hi.
Qed.

Lemma lastUpdate_set_iff_counted_witness :
  let w := world_after local_platform
             [Toggle; SockOpen 0; SockMessage 0 dashboard_metrics_frame 7] in
  reachable local_platform w /\ (lastUpdate w = None <-> updateCount w = 0) /\
  lastUpdate w = Some 7 /\ updateCount w = 1.
Proof.
  cbn zeta.
  assert (Hr : reachable local_platform (world_after local_platform
             [Toggle; SockOpen 0; SockMessage 0 dashboard_metrics_frame 7]))
    by (exists [Toggle; SockOpen 0; SockMessage 0 dashboard_metrics_frame 7];
        vm_compute; reflexivity).
  split; [exact Hr|]. split; [exact (lastUpdate_set_iff_counted local_platform _ Hr)|].
  split; vm_compute; reflexivity.
Defined.

(** X9. [reconnectAttempts] is written by two callbacks only: the open
    handler of a socket puts it to 0 and a firing reconnect timer adds one.
    A close or error event, a frame and a click on the toggle leave it as it
    is. *)
Theorem reconnectAttempts_step (P : Platform) (w w' : World) (ev : Event) :
  step P w ev = Some w' ->
  reconnectAttempts w' =
    match ev with
    | SockOpen _ => 0
    | TimerFire _ => S (reconnectAttempts w)
    | _ => reconnectAttempts w
    end.
Proof.
  intros Hstep. destruct ev.
  - apply step_Toggle in Hstep. subst w'. apply toggle_keeps_reconnectAttempts.
  - apply step_SockOpen in Hstep as (s & _ & _ & ->). reflexivity.
  - apply step_SockMessage in Hstep as (s & _ & _ & ->).
    by destruct (ws_onmessage_hook_cells (handlers s) date data w) as (_ & _ & -> & _).
  - apply step_SockError in Hstep as (s & _ & _ & ->). reflexivity.
  - apply step_SockClose in Hstep as (s & _ & _ & ->). rewrite ws_onclose_world.
    cbn zeta. destruct (_ <? _); reflexivity.
  - apply step_TimerFire in Hstep as (tm & _ & _ & ->). rewrite reconnect_timeout_world.
    rewrite connect_keeps_reconnectAttempts. reflexivity.
Qed.

Lemma reconnectAttempts_step_witness :
  let w := world_after local_platform (failed_connects 2 ++ [SockClose 2]) in
  let w' := world_after local_platform (failed_connects 2 ++ [SockClose 2; TimerFire 2]) in
  step local_platform w (TimerFire 2) = Some w' /\
  reconnectAttempts w = 2 /\ reconnectAttempts w' = S (reconnectAttempts w).
Proof.
  cbn zeta. split; [vm_compute; reflexivity|]. split; [vm_compute; reflexivity|].
  apply (reconnectAttempts_step local_platform _ _ (TimerFire 2)). vm_compute; reflexivity.
Defined.

Lemma last_index_app {A : Type} (l : list A) (x : A) :
  last_index (l ++ [x]) = Some (length l).
Proof. unfold last_index. rewrite length_app. cbn. by rewrite Nat.add_1_r. Qed.

Lemma last_index_length {A B : Type} (l : list A) (l' : list B) :
  length l = length l' -> last_index l = last_index l'.
Proof. unfold last_index. by intros ->. Qed.

(** X10. On the page [ws.current] always names the socket constructed
    last and [reconnectTimeoutRef] the timer set last (both are empty until
    there is one).  So [disconnect] reaches the newest socket and the newest
    timer and no other. *)
Theorem refs_name_the_newest (P : Platform) (w : World) :
  reachable P w ->
  ws_current w = last_index (sockets w) /\
  reconnectTimeoutRef w = last_index (timers w).
Proof.
  revert w. apply (reachable_ind_step P (fun w =>
    ws_current w = last_index (sockets w) /\
    reconnectTimeoutRef w = last_index (timers w))).
  - split; reflexivity.
  - intros w ev w' _ [Hc Ht] Hstep. destruct ev.
    + apply step_Toggle in Hstep. subst w'. rewrite toggle_click_world. cbn zeta.
      set (w1 := with_isRealTimeEnabled _ w).
      assert (Hd : ws_current (exec disconnect w1) = last_index (sockets (exec disconnect w1))
                   /\ reconnectTimeoutRef (exec disconnect w1) =
                      last_index (timers (exec disconnect w1))).
      { rewrite disconnect_world. cbn. split.
        - transitivity (last_index (sockets w)); [exact Hc|]. apply last_index_length.
          destruct (ws_current w); [by rewrite length_close_in | reflexivity].
        - transitivity (last_index (timers w)); [exact Ht|]. apply last_index_length.
          destruct (reconnectTimeoutRef w); [by rewrite length_clear_in | reflexivity]. }
      destruct Hd as [Hd1 Hd2].
      destruct (truthy _).
      * destruct (connect_cases P (render P w1) (exec disconnect w1)) as [-> | [-> | ->]];
          cbn; rewrite ?last_index_app; auto.
      * cbn. auto.
    + apply step_SockOpen in Hstep as (s & _ & _ & ->). rewrite ws_onopen_world. cbn.
      split; [|exact Ht]. rewrite Hc. apply last_index_length. by rewrite length_alter.
    + apply step_SockMessage in Hstep as (s & _ & _ & ->).
      destruct (ws_onmessage_connection (handlers s) date data w) as (-> & -> & ->).
      destruct (ws_onmessage_hook_cells (handlers s) date data w) as (_ & _ & _ & -> & _).
      auto.
    + apply step_SockError in Hstep as (s & _ & _ & ->). rewrite ws_onerror_world. cbn. auto.
    + apply step_SockClose in Hstep as (s & _ & _ & ->). rewrite ws_onclose_world.
      cbn zeta. destruct (_ <? _); cbn; rewrite ?last_index_app;
        (split; [rewrite Hc; apply last_index_length; by rewrite length_alter | auto]).
    + apply step_TimerFire in Hstep as (tm & _ & _ & ->). rewrite reconnect_timeout_world.
      match goal with |- context [exec (connect P ?r) ?w0] =>
        destruct (connect_cases P r w0) as [-> | [-> | ->]] end; cbn;
        rewrite ?last_index_app;
        (split; [auto | rewrite Ht; apply last_index_length; by rewrite length_alter]).
Qed.

Lemma refs_name_the_newest_witness :
  let w := world_after local_platform (failed_connects 2 ++ [SockClose 2]) in
  reachable local_platform w /\
  ws_current w = last_index (sockets w) /\
  reconnectTimeoutRef w = last_index (timers w) /\
  ws_current w = Some 2 /\ reconnectTimeoutRef w = Some 2.
Proof.
  cbn zeta.
  assert (Hr : reachable local_platform
                 (world_after local_platform (failed_connects 2 ++ [SockClose 2])))
    by (exists (failed_connects 2 ++ [SockClose 2]); vm_compute; reflexivity).
  split; [exact Hr|].
  destruct (refs_name_the_newest local_platform _ Hr) as [H1 H2].
  split; [exact H1|]. split; [exact H2|]. split; vm_compute; reflexivity.
Defined.

(** X11. When the socket constructor rejects the configured url, the page
    never has a socket or a timer, whatever the user does: enabling reports
    [error], disabling reports [disconnected], [isConnected] stays false and
    nothing is ever counted as an update. *)
Theorem rejected_url_never_connects (P : Platform) (w : World) :
  WebSocket_accepts P (wsUrl P) = false ->
  reachable P w ->
  sockets w = [] /\ timers w = [] /\ isConnected w = false /\
  connectionStatus w = (if isRealTimeEnabled w then error else disconnected) /\
  updateCount w = 0.
Proof.
  intros Ha. revert w. apply (reachable_ind_step P (fun w =>
    sockets w = [] /\ timers w = [] /\ isConnected w = false /\
    connectionStatus w = (if isRealTimeEnabled w then error else disconnected) /\
    updateCount w = 0)).
  - repeat split; reflexivity.
  - intros w ev w' _ (Hs & Ht & Hc & Hst & Hu) Hstep. destruct ev.
    + apply step_Toggle in Hstep. subst w'. rewrite toggle_click_world. cbn zeta.
      set (w1 := with_isRealTimeEnabled _ w).
      assert (Hd : sockets (exec disconnect w1) = [] /\ timers (exec disconnect w1) = []).
      { rewrite disconnect_world. cbn. rewrite Hs, Ht.
        split; [destruct (ws_current w) | destruct (reconnectTimeoutRef w)]; reflexivity. }
      destruct Hd as [Hd1 Hd2].
      assert (Hcells : isConnected (exec disconnect w1) = false /\
                       updateCount (exec disconnect w1) = 0 /\
                       isRealTimeEnabled (exec disconnect w1) = negb (isRealTimeEnabled w))
        by (rewrite disconnect_world; cbn; auto).
      destruct Hcells as (Hc1 & Hu1 & He1).
      destruct (isRealTimeEnabled w) eqn:He; cbn [negb] in *.
      * assert (Hur : truthy (r_url (render P w1)) = false) by reflexivity.
        rewrite Hur. cbn. rewrite He1. auto.
      * assert (Hur : r_url (render P w1) = wsUrl P) by reflexivity.
        rewrite Hur, wsUrl_truthy.
        rewrite connect_rejected by (rewrite Hur; first [apply wsUrl_truthy | exact Ha]).
        cbn. rewrite He1. auto.
    + apply step_SockOpen in Hstep as (s & Hl & _). by rewrite Hs, lookup_nil in Hl.
    + apply step_SockMessage in Hstep as (s & Hl & _). by rewrite Hs, lookup_nil in Hl.
    + apply step_SockError in Hstep as (s & Hl & _). by rewrite Hs, lookup_nil in Hl.
    + apply step_SockClose in Hstep as (s & Hl & _). by rewrite Hs, lookup_nil in Hl.
    + apply step_TimerFire in Hstep as (tm & Hl & _). by rewrite Ht, lookup_nil in Hl.
Qed.

Lemma rejected_url_never_connects_witness :
  let w := world_after rejecting_platform [Toggle; Toggle; Toggle] in
  (WebSocket_accepts rejecting_platform (wsUrl rejecting_platform) = false /\
   reachable rejecting_platform w /\ isRealTimeEnabled w = true) /\
  sockets w = [] /\ timers w = [] /\ isConnected w = false /\
  connectionStatus w = (if isRealTimeEnabled w then error else disconnected) /\
  updateCount w = 0.
Proof.
  cbn zeta.
  assert (Hr : reachable rejecting_platform
                 (world_after rejecting_platform [Toggle; Toggle; Toggle]))
    by (exists [Toggle; Toggle; Toggle]; vm_compute; reflexivity).
  split; [split; [reflexivity | split; [exact Hr | vm_compute; reflexivity]]|].
  exact (rejected_url_never_connects rejecting_platform _ eq_refl Hr).
Defined.

Lemma app_singleton_neq {A : Type} (l : list A) (x : A) : l ++ [x] <> l.
Proof.
  intros H. apply (f_equal length) in H. rewrite length_app in H. cbn in H. lia.
Qed.

(** X12. What the message handler writes to the console, for handlers made
    while real-time updates are enabled: the line of its catch block, when
    the frame does not parse and also when it parses to [null] (reading
    [type] of [null] throws inside the [try]); nothing otherwise.  The
    frame [null] has by then been stored in [lastMessage] and counted as an
    update. *)
Theorem parse_failure_logged (r : Render) (date : nat) (data : JSString) (w : World) :
  r_isRealTimeEnabled r = true ->
  let w' := exec (ws_onmessage r date data) w in
  (console w' = console w ++ [parse_failure_line] <->
     JSON_parse data = None \/ JSON_parse data = Some JNull) /\
  (console w' <> console w ++ [parse_failure_line] -> console w' = console w) /\
  (JSON_parse data = Some JNull ->
     lastMessage w' = JNull /\ lastUpdate w' = Some date /\
     updateCount w' = S (updateCount w) /\ invalidated w' = invalidated w).
Proof.
  intros He. cbn zeta. destruct (JSON_parse data) as [v|] eqn:Hp.
  - assert (Hcon : console (exec (ws_onmessage r date data) w) =
                   console w ++ match v with JNull => [parse_failure_line] | _ => [] end).
    { destruct (get_property v "type") as [| |ty] eqn:G.
      - assert (v = JNull) as ->
          by (destruct v; try discriminate; try reflexivity;
              unfold get_property in G; destruct (lookup_member _ _); discriminate).
        unfold ws_onmessage, onMessage. eff_unfold. rewrite Hp, He. cbn. by rewrite G.
      - assert (Hv : match v with JNull => [parse_failure_line] | _ => [] end = [])
          by (destruct v; try reflexivity; discriminate).
        rewrite Hv, app_nil_r.
        unfold ws_onmessage, onMessage. eff_unfold. rewrite Hp, He. cbn. rewrite G. cbn.
        split_tests; reflexivity.
      - assert (Hv : match v with JNull => [parse_failure_line] | _ => [] end = [])
          by (destruct v; try reflexivity; discriminate).
        rewrite Hv, app_nil_r.
        unfold ws_onmessage, onMessage. eff_unfold. rewrite Hp, He. cbn. rewrite G. cbn.
        split_tests; reflexivity. }
    rewrite Hcon. split; [|split].
    + split.
      * intros H. right. destruct v; try reflexivity;
          rewrite app_nil_r in H; symmetry in H; by apply app_singleton_neq in H.
      * intros [H|H]; [discriminate|]. by simplify_eq.
    + intros H. destruct v; rewrite ?app_nil_r; try reflexivity. by destruct H.
    + intros [= ->].
      destruct (ws_onmessage_parsed r date data JNull w Hp He) as (H1 & H2 & H3 & H4).
      repeat split; auto. rewrite H4. cbn. by rewrite app_nil_r.
  - rewrite (ws_onmessage_malformed _ _ _ _ Hp). cbn. split; [|split].
    + split; auto.
    + intros H. by destruct H.
    + discriminate.
Qed.

Lemma parse_failure_logged_witness :
  let w := world_after local_platform [Toggle; SockOpen 0] in
  let r := first_render local_platform in
  let w' := exec (ws_onmessage r 4 (units "null")) w in
  (r_isRealTimeEnabled r = true /\ JSON_parse (units "null") = Some JNull) /\
  console w' = console w ++ [parse_failure_line] /\
  lastMessage w' = JNull /\ lastUpdate w' = Some 4 /\
  updateCount w' = S (updateCount w) /\ invalidated w' = invalidated w.
Proof.
  cbn zeta. split; [evaluate|].
  destruct (parse_failure_logged (first_render local_platform) 4 (units "null")
              (world_after local_platform [Toggle; SockOpen 0]) eq_refl) as (H1 & _ & H3).
  split; [apply H1; right; vm_compute; reflexivity|].
  apply H3. vm_compute; reflexivity.
Defined.

(* ===================================================================== *)
(** ** The status badge *)
(* ===================================================================== *)

(** X13. The badge colour goes with the badge text in every world: green
    with Live, yellow with Connecting, red with Error, grey with Paused and
    with Disconnected.  The text is Paused exactly when real-time updates are
    disabled, whatever the connection is doing, and the pause icon goes with
    it. *)
Theorem status_color_follows_text (w : World) :
  (getStatusText w = "Live" <-> getStatusColor w = "bg-green-500") /\
  (getStatusText w = "Connecting" <-> getStatusColor w = "bg-yellow-500") /\
  (getStatusText w = "Error" <-> getStatusColor w = "bg-red-500") /\
  (getStatusText w = "Paused" \/ getStatusText w = "Disconnected" <->
     getStatusColor w = "bg-gray-500") /\
  (getStatusText w = "Paused" <-> isRealTimeEnabled w = false) /\
  (getStatusText w = "Paused" <-> getStatusIcon w = PauseIcon).
Proof.
  unfold getStatusText, getStatusColor, getStatusIcon.
  destruct (isRealTimeEnabled w), (connectionStatus w), (isConnected w); cbn;
    repeat split; intros; try discriminate; try reflexivity; auto;
    match goal with H : _ \/ _ |- _ => destruct H; discriminate end.
Qed.

(** X14. On the page, whenever the badge reads Live it is green and shows
    the wifi icon: real-time updates are enabled, the status is [connected]
    and [isConnected] is true. *)
Theorem live_badge_shows_wifi (P : Platform) (w : World) :
  reachable P w -> getStatusText w = "Live" ->
  getStatusIcon w = WifiIcon /\ getStatusColor w = "bg-green-500" /\
  isRealTimeEnabled w = true /\ connectionStatus w = connected /\ isConnected w = true.
Proof.
  intros Hr Ht.
  assert (He : isRealTimeEnabled w = true /\ connectionStatus w = connected).
  { revert Ht. unfold getStatusText.
    destruct (isRealTimeEnabled w), (connectionStatus w); cbn; intros; try discriminate.
    by split. }
  destruct He as [He Hc].
  pose proof (reachable_connected_isConnected P w Hr Hc) as Hi.
  unfold getStatusIcon, getStatusColor. rewrite He, Hc, Hi. cbn. auto.
Qed.

Lemma live_badge_shows_wifi_witness :
  let w := world_after local_platform [Toggle; SockOpen 0] in
  (reachable local_platform w /\ getStatusText w = "Live") /\
  getStatusIcon w = WifiIcon /\ getStatusColor w = "bg-green-500" /\
  isRealTimeEnabled w = true /\ connectionStatus w = connected /\ isConnected w = true.
Proof.
  cbn zeta.
  assert (Hr : reachable local_platform (world_after local_platform [Toggle; SockOpen 0]))
    by (exists [Toggle; SockOpen 0]; vm_compute; reflexivity).
  assert (Ht : getStatusText (world_after local_platform [Toggle; SockOpen 0]) = "Live")
    by (vm_compute; reflexivity).
  split; [split; [exact Hr | exact Ht]|].
  exact (live_badge_shows_wifi local_platform _ Hr Ht).
Defined.

(* ===================================================================== *)
(** ** The alerts panel *)
(* ===================================================================== *)

Lemma length_push_alert (a : Alert) (prev : list Alert) :
  length (push_alert a prev) = S (min 9 (length prev)).
Proof. unfold push_alert. cbn. by rewrite length_take. Qed.

Lemma alert_action_bound (alerts : list Alert) (act : AlertAction) :
  length alerts <= 10 -> length (alert_action alerts act) <= 10.
Proof.
  intros H. destruct act; unfold alert_action.
  - rewrite length_push_alert. lia.
  - unfold dismissAlert. by rewrite length_map.
  - cbn. lia.
Qed.

(** X15. The panel never holds more than ten alerts, whatever is pushed,
    dismissed or cleared, and dismissed alerts count among the ten.  A push
    puts the new alert first, keeps the nine that were first in their order
    and drops the rest. *)
Theorem alerts_never_exceed_ten :
  (forall (start : list Alert) (actions : list AlertAction),
     length start <= 10 -> length (fold_left alert_action actions start) <= 10) /\
  (forall (a : Alert) (prev : list Alert),
     push_alert a prev !! 0 = Some a /\
     (forall i, i < 9 -> push_alert a prev !! S i = prev !! i) /\
     (forall i, 9 <= i -> push_alert a prev !! S i = None) /\
     length (push_alert a prev) = S (min 9 (length prev))).
Proof.
  split.
  - intros start actions. revert start.
    induction actions as [|act actions IH]; intros start H; cbn; [exact H|].
    apply IH. by apply alert_action_bound.
  - intros a prev. unfold push_alert. repeat split.
    + intros i Hi. cbn. by apply lookup_take_lt.
    + intros i Hi. cbn. by apply lookup_take_ge.
    + apply length_push_alert.
Qed.

Lemma activeAlerts_dismissAlert (alertId : string) (alerts : list Alert) :
  activeAlerts (dismissAlert alertId alerts) =
  List.filter (fun a => negb (String.eqb (a_id a) alertId)) (activeAlerts alerts).
Proof.
  unfold activeAlerts, dismissAlert.
  induction alerts as [|a l IH]; cbn; [reflexivity|].
  destruct (String.eqb (a_id a) alertId) eqn:E; cbn.
  - destruct (a_dismissed a); cbn; rewrite ?E; cbn; exact IH.
  - destruct (a_dismissed a); cbn; rewrite ?E; cbn; [exact IH | by rewrite IH].
Qed.

(** X16. Dismissing an id removes from the active alerts exactly the ones
    with that id (all of them, should two alerts share an id) and leaves the
    others active and in order.  No alert is deleted: the list keeps its
    length and its ids.  Dismissing the same id again changes nothing, and
    two dismissals give the same list in either order. *)
Theorem dismissAlert_hides_that_id (alertId other : string) (alerts : list Alert) :
  activeAlerts (dismissAlert alertId alerts) =
    List.filter (fun a => negb (String.eqb (a_id a) alertId)) (activeAlerts alerts) /\
  (forall a, In a (activeAlerts (dismissAlert alertId alerts)) -> a_id a <> alertId) /\
  length (dismissAlert alertId alerts) = length alerts /\
  map a_id (dismissAlert alertId alerts) = map a_id alerts /\
  dismissAlert alertId (dismissAlert alertId alerts) = dismissAlert alertId alerts /\
  dismissAlert alertId (dismissAlert other alerts) =
    dismissAlert other (dismissAlert alertId alerts).
Proof.
  split; [apply activeAlerts_dismissAlert|]. split; [|split; [|split; [|split]]].
  - intros a Ha. rewrite activeAlerts_dismissAlert in Ha.
    apply List.filter_In in Ha as [_ Ha].
    apply negb_true_iff, String.eqb_neq in Ha. exact Ha.
  - unfold dismissAlert. by rewrite length_map.
  - unfold dismissAlert. rewrite map_map. apply map_ext. intros a.
    by destruct (String.eqb (a_id a) alertId).
  - unfold dismissAlert. rewrite map_map. apply map_ext. intros a.
    destruct (String.eqb (a_id a) alertId) eqn:E; cbn; by rewrite E.
  - unfold dismissAlert. rewrite !map_map. apply map_ext. intros a.
    destruct (String.eqb (a_id a) alertId) eqn:E1, (String.eqb (a_id a) other) eqn:E2;
      cbn; rewrite ?E1, ?E2; reflexivity.
Qed.

Lemma filter_length_le {A : Type} (f : A -> bool) (l : list A) :
  length (List.filter f l) <= length l.
Proof. induction l as [|a l IH]; cbn; [lia|]. destruct (f a); cbn; lia. Qed.

Lemma filter_disjoint_length {A : Type} (f g : A -> bool) (l : list A) :
  (forall a, f a = true -> g a = false) ->
  length (List.filter f l) + length (List.filter g l) <= length l.
Proof.
  intros H. induction l as [|a l IH]; cbn; [lia|].
  destruct (f a) eqn:Ef; cbn.
  - rewrite (H a Ef). lia.
  - destruct (g a); cbn; lia.
Qed.

(** X17. The three counters of the panel header: critical and warning
    alerts are active alerts of different kinds, so their counts together
    never exceed the count of active alerts, which never exceeds the length
    of the list; after [clearAllAlerts] no alert is active. *)
Theorem alert_counters (alerts : list Alert) :
  length (criticalAlerts alerts) + length (warningAlerts alerts)
    <= length (activeAlerts alerts) /\
  length (activeAlerts alerts) <= length alerts /\
  (forall a, In a (criticalAlerts alerts) ->
     a_type a = critical /\ a_dismissed a = false /\ In a alerts) /\
  (forall a, In a (warningAlerts alerts) ->
     a_type a = warning /\ a_dismissed a = false /\ In a alerts) /\
  activeAlerts (clearAllAlerts alerts) = [].
Proof.
  unfold criticalAlerts, warningAlerts. repeat split.
  - apply filter_disjoint_length. intros a. by destruct (a_type a).
  - apply filter_length_le.
  - apply List.filter_In in H as [_ H]. by destruct (a_type a).
  - apply List.filter_In in H as [H _]. unfold activeAlerts in H.
    apply List.filter_In in H as [_ H]. by apply negb_true_iff in H.
  - apply List.filter_In in H as [H _]. unfold activeAlerts in H.
    by apply List.filter_In in H as [H _].
  - apply List.filter_In in H as [_ H]. by destruct (a_type a).
  - apply List.filter_In in H as [H _]. unfold activeAlerts in H.
    apply List.filter_In in H as [_ H]. by apply negb_true_iff in H.
  - apply List.filter_In in H as [H _]. unfold activeAlerts in H.
    by apply List.filter_In in H as [H _].
Qed.

Lemma units_eqb_eq (a b : JSString) : units_eqb a b = true <-> a = b.
Proof.
  revert b. induction a as [|x a IH]; intros [|y b]; cbn; split; try done.
  - intros H. apply andb_true_iff in H as [H1 H2].
    apply N.eqb_eq in H1. apply IH in H2. by subst.
  - intros [= -> ->]. rewrite N.eqb_refl. cbn. by apply IH.
Qed.

(** X18. When the effect of the alerts panel adds nothing.  With no
    message yet, a falsy message or no connection it leaves the list alone.
    With a truthy message and a connection, but a [type] that is not a
    string (absent, a number, an object, ...), calling [replace] on it throws
    a TypeError out of the effect, before any alert is added. *)
Theorem alert_effect_without_alert (number_truthy : JSString -> bool)
    (less_than : JSValue -> string -> bool) (lastMessage : JSValue) (isConnected : bool)
    (now date : nat) (prev : list Alert) :
  (js_truthy number_truthy lastMessage = false \/ isConnected = false ->
     alert_effect number_truthy less_than lastMessage isConnected now date prev
       = Return prev) /\
  (js_truthy number_truthy lastMessage = true -> isConnected = true ->
     (forall ty, get_property lastMessage "type" <> ReadValue (JString ty)) ->
     alert_effect number_truthy less_than lastMessage isConnected now date prev
       = Throw TypeError) /\
  (forall ms, lastMessage = JObject ms -> isConnected = true ->
     lookup_member (units "type") ms = None ->
     alert_effect number_truthy less_than lastMessage isConnected now date prev
       = Throw TypeError).
Proof.
  assert (Hthrow : js_truthy number_truthy lastMessage = true -> isConnected = true ->
     (forall ty, get_property lastMessage "type" <> ReadValue (JString ty)) ->
     alert_effect number_truthy less_than lastMessage isConnected now date prev
       = Throw TypeError).
  { intros Ht -> Hty. unfold alert_effect. rewrite Ht. cbn.
    destruct (get_property lastMessage "type") as [| |v] eqn:G; try reflexivity.
    destruct v; try reflexivity. exfalso. by eapply Hty. }
  split; [|split].
  - intros [H | ->]; unfold alert_effect.
    + by rewrite H.
    + by rewrite andb_false_r.
  - exact Hthrow.
  - intros ms -> Hc Hl. apply Hthrow; [reflexivity | exact Hc |].
    intros ty. unfold get_property. by rewrite Hl.
Qed.

Lemma alert_effect_without_alert_witness :
  let nt := fun _ : JSString => true in
  let lt := fun (_ : JSValue) (_ : string) => false in
  (js_truthy nt (JObject []) = true /\
   lookup_member (units "type") [] = None) /\
  alert_effect nt lt (JObject []) true 5 6 [] = Throw TypeError /\
  alert_effect nt lt JNull true 5 6 [] = Return [] /\
  alert_effect nt lt (JObject []) false 5 6 [] = Return [].
Proof.
  cbn zeta. split; [split; reflexivity|].
  split; [|split].
  - eapply (proj2 (proj2 (alert_effect_without_alert _ _ (JObject []) true 5 6 [])));
      reflexivity.
  - apply (proj1 (alert_effect_without_alert _ _ JNull true 5 6 [])). by left.
  - apply (proj1 (alert_effect_without_alert _ _ (JObject []) false 5 6 [])). by right.
Defined.

(** X19. When the effect does add an alert (truthy message, connection,
    [type] a string) it adds exactly one, in front, with the id made from
    [Date.now()], not dismissed.  The alert is critical only for a
    [funnel_analysis] message and a warning only for a [sentiment_analysis]
    message, each with its own title; for every other type, known or not,
    it is the info alert titled Data Updated whose text is the type with its
    first underscore turned into a space, followed by [data has been
    updated]. *)
Theorem alert_effect_alert (number_truthy : JSString -> bool)
    (less_than : JSValue -> string -> bool) (lastMessage : JSValue) (ty : JSString)
    (now date : nat) (prev : list Alert) :
  js_truthy number_truthy lastMessage = true ->
  get_property lastMessage "type" = ReadValue (JString ty) ->
  exists a,
    alert_effect number_truthy less_than lastMessage true now date prev
      = Return (push_alert a prev) /\
    a_id a = "alert-" +:+ pretty now /\ a_timestamp a = date /\ a_dismissed a = false /\
    (a_type a = critical -> ty = units "funnel_analysis") /\
    (a_type a = warning -> ty = units "sentiment_analysis") /\
    (a_type a = critical <-> a_title a = "Low Conversion Rate Alert") /\
    (a_type a = warning <-> a_title a = "Negative Sentiment Detected") /\
    (a_type a = info <-> a_title a = "Data Updated") /\
    (a_type a = info ->
       a_message a = replace_first 95 32 ty ++ units " data has been updated") /\
    (ty <> units "funnel_analysis" -> ty <> units "sentiment_analysis" -> a_type a = info).
Proof.
  intros Ht Hty. unfold alert_effect. rewrite Ht, Hty. cbn [andb].
  unfold strict_eq_literal.
  destruct (units_eqb ty (units "funnel_analysis")) eqn:Ef.
  - apply units_eqb_eq in Ef.
    destruct (lt_literal less_than (data_field lastMessage "conversion_rate") "5"); cbn [andb].
    + eexists. split; [reflexivity|]. cbn.
      repeat split; intros; try discriminate; try reflexivity; try done.
    + assert (Es : units_eqb ty (units "sentiment_analysis") = false)
        by (subst ty; reflexivity).
      rewrite Es. cbn [andb].
      eexists. split; [reflexivity|]. cbn.
      repeat split; intros; try discriminate; try reflexivity; try done.
  - cbn [andb].
    destruct (units_eqb ty (units "sentiment_analysis")) eqn:Es.
    + apply units_eqb_eq in Es.
      destruct (lt_literal less_than (data_field lastMessage "sentiment") "-0.5");
        cbn [andb]; eexists; (split; [reflexivity|]); cbn;
        repeat split; intros; try discriminate; try reflexivity; try done.
    + cbn [andb]. eexists. split; [reflexivity|]. cbn.
      repeat split; intros; try discriminate; try reflexivity; try done.
Qed.

Lemma alert_effect_alert_witness :
  let nt := fun _ : JSString => true in
  let lt := fun (_ : JSValue) (_ : string) => true in
  let message := JObject [(units "type", JString (units "user_journey_patterns"))] in
  (js_truthy nt message = true /\
   get_property message "type" = ReadValue (JString (units "user_journey_patterns"))) /\
  exists a,
    alert_effect nt lt message true 5 6 [] = Return (push_alert a []) /\
    a_id a = "alert-5" /\ a_type a = info /\
    a_message a = units "user journey_patterns data has been updated".
Proof.
  cbn zeta. split; [split; vm_compute; reflexivity|].
  destruct (alert_effect_alert (fun _ => true) (fun _ _ => true)
    (JObject [(units "type", JString (units "user_journey_patterns"))])
    (units "user_journey_patterns") 5 6 [] eq_refl eq_refl)
    as (a & H1 & H2 & _ & _ & _ & _ & _ & _ & _ & H10 & H11).
  exists a. split; [exact H1|].
  assert (Hi : a_type a = info) by (apply H11; vm_compute; discriminate).
  split; [rewrite H2; vm_compute; reflexivity|]. split; [exact Hi|].
  rewrite (H10 Hi). vm_compute. reflexivity.
Defined.




(* ===================================================================== *)
(** ** Invalidation calls and the queries of the dashboard *)
(* ===================================================================== *)

Lemma step_invalidated (P : Platform) (w w' : World) (ev : Event) :
  reachable P w -> step P w ev = Some w' ->
  invalidated w' = invalidated w ++ routed ev.
Proof.
  intros Hr Hstep.
  destruct ev as [| i | i data date | i | i | t];
    try (destruct (step_data_cells P w w' _ Hstep I) as (_ & -> & _);
         cbn; by rewrite app_nil_r).
  apply step_SockMessage in Hstep as (s & Hl & Ho & ->).
  pose proof (reachable_handlers_enabled P w i s Hr Hl) as He.
  cbn. destruct (JSON_parse data) as [v|] eqn:Hp.
  - by destruct (ws_onmessage_parsed _ date data v w Hp He) as (_ & _ & _ & ->).
  - rewrite (ws_onmessage_malformed _ _ _ _ Hp). cbn. by rewrite app_nil_r.
Qed.

Lemma routed_routable (ev : Event) : Forall (fun c => In c routable_calls) (routed ev).
Proof.
  destruct ev; cbn; try constructor.
  destruct (JSON_parse data) as [v|]; [|constructor].
  destruct (event_type v); cbn;
    repeat (apply List.Forall_cons; [vm_compute; auto 10|]); apply List.Forall_nil.
Qed.

Lemma reachable_invalidated_routable (P : Platform) (w : World) :
  reachable P w -> Forall (fun c => In c routable_calls) (invalidated w).
Proof.
  revert w. apply (reachable_ind_step P
    (fun w => Forall (fun c => In c routable_calls) (invalidated w))).
  - constructor.
  - intros w ev w' Hr Hi Hstep. rewrite (step_invalidated P w w' ev Hr Hstep).
    apply Forall_app. split; [exact Hi | apply routed_routable].
Qed.

Lemma invalidated_query_false {number : Type} (calls : list (list string))
    (key : list (KeyPart number)) :
  Forall (fun c => In c routable_calls) calls ->
  (forall c, In c routable_calls -> partial_match c key = false) ->
  invalidated_query calls key = false.
Proof.
  intros Hc Hk. unfold invalidated_query.
  induction calls as [|c calls IH]; cbn; [reflexivity|].
  inversion Hc as [|? ? Hin Hrest]; subst.
  rewrite (Hk c Hin). cbn. by apply IH.
Qed.

(** X21. No event ever invalidates a query of [useConversionTrends] or of
    [useCohortAnalysis], whatever their parameters: on the page, no call made
    on the query cache matches their keys. *)
Theorem trends_and_cohorts_never_invalidated (number : Type) (P : Platform) (w : World) :
  reachable P w ->
  (forall period deviceType startDate endDate,
     invalidated_query (invalidated w)
       (@useConversionTrends_queryKey number period deviceType startDate endDate) = false) /\
  (forall cohortType deviceType,
     invalidated_query (invalidated w)
       (@useCohortAnalysis_queryKey number cohortType deviceType) = false).
Proof.
  intros Hr. pose proof (reachable_invalidated_routable P w Hr) as Hc.
  split; intros; apply invalidated_query_false; try exact Hc;
    intros c Hin; cbn in Hin;
    repeat (destruct Hin as [<- | Hin]; [reflexivity|]); destruct Hin.
Qed.

Lemma trends_and_cohorts_never_invalidated_witness :
  let w := world_after local_platform
             [Toggle; SockOpen 0; SockMessage 0 dashboard_metrics_frame 7] in
  reachable local_platform w /\ invalidated w = [["dashboard-metrics"]] /\
  (forall period deviceType startDate endDate,
     invalidated_query (invalidated w)
       (@useConversionTrends_queryKey nat period deviceType startDate endDate) = false) /\
  (forall cohortType deviceType,
     invalidated_query (invalidated w)
       (@useCohortAnalysis_queryKey nat cohortType deviceType) = false).
Proof.
  cbn zeta.
  assert (Hr : reachable local_platform (world_after local_platform
             [Toggle; SockOpen 0; SockMessage 0 dashboard_metrics_frame 7]))
    by (exists [Toggle; SockOpen 0; SockMessage 0 dashboard_metrics_frame 7];
        vm_compute; reflexivity).
  split; [exact Hr|]. split; [vm_compute; reflexivity|].
  exact (trends_and_cohorts_never_invalidated nat local_platform _ Hr).
Defined.

Lemma invalidated_query_app {number : Type} (old new : list (list string))
    (key : list (KeyPart number)) :
  invalidated_query new key = true -> invalidated_query (old ++ new) key = true.
Proof.
  unfold invalidated_query. intros H. rewrite existsb_app, H. apply orb_true_r.
Qed.

(** X22. A delivered frame of a known type invalidates every query of the
    hooks and pages that show that data, whatever their parameters:
    [dashboard_metrics] the queries of [useDashboardMetrics];
    [funnel_analysis] those of [useFunnelAnalysis] and the drop-off query of
    the funnel page; [sentiment_analysis] those of [useSentimentAnalysis];
    [user_behavior] the user-behaviour and journey queries of the users
    page, those of [useUserJourneyPatterns] and the similar-users query.  A
    frame of any other type leaves the calls on the cache as they were. *)
Theorem known_frame_invalidates_its_queries (number : Type) (P : Platform) (w w' : World)
    (i : nat) (data : JSString) (date : nat) (v : JSValue) :
  reachable P w ->
  step P w (SockMessage i data date) = Some w' ->
  JSON_parse data = Some v ->
  match event_type v with
  | DashboardMetrics =>
      forall startDate endDate,
        invalidated_query (invalidated w')
          (@useDashboardMetrics_queryKey number startDate endDate) = true
  | FunnelAnalysis =>
      (forall deviceType startDate endDate,
         invalidated_query (invalidated w')
           (@useFunnelAnalysis_queryKey number deviceType startDate endDate) = true) /\
      (forall deviceFilter,
         invalidated_query (invalidated w')
           (@FunnelPage_dropoff_queryKey number deviceFilter) = true)
  | SentimentAnalysis =>
      forall page startDate endDate,
        invalidated_query (invalidated w')
          (@useSentimentAnalysis_queryKey number page startDate endDate) = true
  | UserBehavior =>
      invalidated_query (invalidated w') (@UsersPage_userBehavior_queryKey number) = true /\
      invalidated_query (invalidated w') (@UsersPage_journeyPatterns_queryKey number) = true /\
      (forall deviceType minSessions,
         invalidated_query (invalidated w')
           (@useUserJourneyPatterns_queryKey number deviceType minSessions) = true) /\
      (forall currentUserId,
         invalidated_query (invalidated w')
           (@SimilarUsers_queryKey number currentUserId) = true)
  | Unknown => invalidated w' = invalidated w
  end.
Proof.
  intros Hr Hstep Hp.
  rewrite (step_invalidated P w w' _ Hr Hstep). cbn [routed]. rewrite Hp.
  destruct (event_type v); cbn [routing_table map];
    repeat split; intros; try (apply invalidated_query_app; reflexivity).
  by rewrite app_nil_r.
Qed.

Lemma known_frame_invalidates_its_queries_witness :
  let frame := json_text "{'type':'funnel_analysis','data':{'conversion_rate':3}}" in
  let w := world_after local_platform [Toggle; SockOpen 0] in
  let w' := world_after local_platform [Toggle; SockOpen 0; SockMessage 0 frame 9] in
  (reachable local_platform w /\
   step local_platform w (SockMessage 0 frame 9) = Some w') /\
  (forall deviceType startDate endDate,
     invalidated_query (invalidated w')
       (@useFunnelAnalysis_queryKey nat deviceType startDate endDate) = true) /\
  (forall deviceFilter,
     invalidated_query (invalidated w')
       (@FunnelPage_dropoff_queryKey nat deviceFilter) = true).
Proof.
  cbn zeta.
  assert (Hr : reachable local_platform (world_after local_platform [Toggle; SockOpen 0]))
    by (exists [Toggle; SockOpen 0]; vm_compute; reflexivity).
  split; [split; [exact Hr | vm_compute; reflexivity]|].
  exact (known_frame_invalidates_its_queries nat local_platform
    (world_after local_platform [Toggle; SockOpen 0])
    (world_after local_platform
       [Toggle; SockOpen 0;
        SockMessage 0 (json_text "{'type':'funnel_analysis','data':{'conversion_rate':3}}") 9])
    0 (json_text "{'type':'funnel_analysis','data':{'conversion_rate':3}}") 9
    (JObject [(units "type", JString (units "funnel_analysis"));
              (units "data", JObject [(units "conversion_rate", JNumber (units "3"))])])
    Hr ltac:(vm_compute; reflexivity) ltac:(vm_compute; reflexivity)).
Defined.
